(** * NEWStudy (complete2.py): response parsing, record validation,
      difficulty scoring and export formatting.

    The development embeds the analysis-button handler of [complete2.py]
    (JSON extraction from the raw model response, length validation of the
    decoded arrays, storing of the record in the session state and the two
    exception branches), the function [calculate_difficulty], the story
    built by [create_pdf] and the vocabulary tab's CSV download.

    Python values are modelled as follows.
    - [str] is a list of Unicode code points ([pystr]); [len] counts code
      points, exactly as Python does.
    - The value returned by [json.loads] is a [json] tree; a decoded object
      is a finite map from keys to values (a Python [dict]).
    - [int] is [Z] or [nat] (for lengths); the two float quotients of
      [calculate_difficulty] are binary64 values ([PrimFloat]).
    - Exceptions are values of [exn]; code inside [try] runs in the monad
      [ui], which threads the list of Streamlit calls made so far and
      stops at the first exception. *)

From Stdlib Require Import ZArith List Floats Uint63 Ascii String Lia.
From stdpp Require Import base option list gmap.
Import ListNotations.

Local Open Scope nat_scope.
Local Open Scope list_scope.

(** ** Python strings *)

Module PyStr.

(** A Python [str]: its sequence of code points. *)
Definition pystr : Type := list N.

(** The code points of an ASCII literal. *)
Definition str (s : string) : pystr :=
  map N_of_ascii (list_ascii_of_string s).

(** The double-quote character, U+0022. *)
Definition dquote : pystr := [34%N].

(** [str.isspace] on one code point: the code points Python treats as
    whitespace in [str.split()] and [str.strip()]. *)
Definition isspace (c : N) : bool :=
  ((9 <=? c) && (c <=? 13) || (28 <=? c) && (c <=? 32)
   || (c =? 133) || (c =? 160) || (c =? 5760)
   || (8192 <=? c) && (c <=? 8202)
   || (c =? 8232) || (c =? 8233) || (c =? 8239) || (c =? 8287)
   || (c =? 12288))%N.

(** [s.startswith(sub)]. *)
Fixpoint startswith (sub s : pystr) : bool :=
  match sub, s with
  | [], _ => true
  | _ :: _, [] => false
  | a :: sub', b :: s' => (a =? b)%N && startswith sub' s'
  end.

(** [sub in s]. *)
Fixpoint contains (sub s : pystr) : bool :=
  startswith sub s ||
  match s with
  | [] => false
  | _ :: s' => contains sub s'
  end.

(** Scan [s], whose first character has index [i] in the whole string, for
    the lowest index at which [sub] starts; [-1] when there is none. *)
Fixpoint find_from (sub s : pystr) (i : Z) : Z :=
  if startswith sub s then i
  else match s with
       | [] => (-1)%Z
       | _ :: s' => find_from sub s' (i + 1)
       end.

(** Python's treatment of a slice bound [i] for a sequence of length [n]:
    a negative bound counts from the end, and the result is clipped to
    [0..n]. *)
Definition clip (n : nat) (i : Z) : nat :=
  if (i <? 0)%Z then Z.to_nat (i + Z.of_nat n)
  else Nat.min (Z.to_nat i) n.

(** [s.find(sub, start)] for a non-empty [sub]. *)
Definition find (sub s : pystr) (start : Z) : Z :=
  let k := clip (length s) start in
  find_from sub (drop k s) (Z.of_nat k).

(** Highest index at which [sub] starts in [s] (whose first character has
    index [i]); [last] is the answer found so far. *)
Fixpoint rfind_from (sub s : pystr) (i last : Z) : Z :=
  let last' := if startswith sub s then i else last in
  match s with
  | [] => last'
  | _ :: s' => rfind_from sub s' (i + 1) last'
  end.

(** [s.rfind(sub)]. *)
Definition rfind (sub s : pystr) : Z := rfind_from sub s 0 (-1).

(** [s[start:stop]] on any sequence. *)
Definition slice {A} (s : list A) (start stop : Z) : list A :=
  let a := clip (length s) start in
  let b := clip (length s) stop in
  take (b - a) (drop a s).

(** [s.lstrip()]. *)
Fixpoint lstrip (s : pystr) : pystr :=
  match s with
  | c :: s' => if isspace c then lstrip s' else s
  | [] => []
  end.

(** [s.rstrip()], computed on the reversed string. *)
Definition rstrip (s : pystr) : pystr := rev (lstrip (rev s)).

(** [s.strip()]. *)
Definition strip (s : pystr) : pystr := rstrip (lstrip s).

(** [s.split()]: the maximal runs of non-whitespace characters.  [cur] is
    the run being read, in reverse. *)
Fixpoint split_acc (s : pystr) (cur : pystr) : list pystr :=
  match s with
  | [] => match cur with [] => [] | _ => [rev cur] end
  | c :: s' =>
      if isspace c
      then match cur with
           | [] => split_acc s' []
           | _ => rev cur :: split_acc s' []
           end
      else split_acc s' (c :: cur)
  end.

Definition split (s : pystr) : list pystr := split_acc s [].

(** [str(n)] for a natural number: its decimal digits.  [fuel] bounds the
    number of digits. *)
Fixpoint digits (fuel : nat) (n : N) (acc : pystr) : pystr :=
  match fuel with
  | O => acc
  | S fuel' =>
      let acc' := (48 + n mod 10)%N :: acc in
      if (n <? 10)%N then acc' else digits fuel' (n / 10)%N acc'
  end.

Definition str_of_nat (n : nat) : pystr :=
  digits (S n) (N.of_nat n) [].

End PyStr.
Export PyStr.

(** ** JSON extraction (handler lines 274-283) *)

(** The marker of a json-tagged fence and the plain fence marker. *)
Definition fence_json : pystr := str "```json".
Definition fence : pystr := str "```".
Definition lbrace : pystr := str "{".
Definition rbrace : pystr := str "}".

Definition extract_json (result : pystr) : pystr :=
  if contains fence_json result then
    let json_start := (find fence_json result 0 + 7)%Z in
    let json_end := find fence result json_start in
    strip (slice result json_start json_end)
  else if contains lbrace result && contains rbrace result then
    let json_start := find lbrace result 0 in
    let json_end := (rfind rbrace result + 1)%Z in
    slice result json_start json_end
  else result.

(** ** Values decoded from JSON, exceptions *)

(** What [json.loads] returns: [None], [bool], [int], [float], [str],
    [list] or [dict]. *)
#[warnings="-register-all"]
Inductive json : Type :=
| JNull
| JBool (b : bool)
| JInt (z : Z)
| JFloat (f : float)
| JStr (s : pystr)
| JArr (l : list json)
| JObj (d : gmap pystr json).

(** The exceptions the modelled code can meet.  [SliceError] is what
    slicing a [dict] raises ([TypeError] for the unhashable slice before
    Python 3.12, [KeyError] from 3.12 on); [OtherError] stands for anything
    else a collaborator may raise. *)
Inductive exn : Type :=
| JSONDecodeError
| AttributeError
| TypeError
| SliceError
| ValueError
| UnicodeEncodeError
| OtherError.

(** A computation that returns a value or raises. *)
Definition res (A : Type) : Type := (exn + A)%type.

#[global] Instance res_ret : MRet res := fun A x => inr x.
#[global] Instance res_bind : MBind res := fun A B f m =>
  match m with
  | inl e => inl e
  | inr x => f x
  end.

(** [len(v)]. *)
Definition py_len (v : json) : res nat :=
  match v with
  | JStr s => inr (length s)
  | JArr l => inr (length l)
  | JObj d => inr (size d)
  | _ => inl TypeError
  end.

(** [v[:n]]. *)
Definition py_take (v : json) (n : nat) : res json :=
  match v with
  | JStr s => inr (JStr (slice s 0 (Z.of_nat n)))
  | JArr l => inr (JArr (slice l 0 (Z.of_nat n)))
  | JObj _ => inl SliceError
  | _ => inl TypeError
  end.

(** Truth value of [v], as tested by [if v] and [not v]. *)
Definition truthy (v : json) : bool :=
  match v with
  | JNull => false
  | JBool b => b
  | JInt z => negb (z =? 0)%Z
  | JFloat f => negb (PrimFloat.eqb f 0%float)
  | JStr s => negb (Nat.eqb (length s) 0)
  | JArr l => negb (Nat.eqb (length l) 0)
  | JObj d => negb (Nat.eqb (size d) 0)
  end.

(** The items [for x in v] visits: the characters of a [str], the elements
    of a [list], the keys of a [dict]. *)
Definition py_iter (v : json) : res (list json) :=
  match v with
  | JStr s => inr (map (fun c => JStr [c]) s)
  | JArr l => inr l
  | JObj d => inr (map (fun kv => JStr (fst kv)) (map_to_list d))
  | _ => inl TypeError
  end.

(** [v.split()]: only a [str] has the method. *)
Definition py_split (v : json) : res (list pystr) :=
  match v with
  | JStr s => inr (split s)
  | _ => inl AttributeError
  end.

(** [data.get(key, default)]: only a [dict] has the method. *)
Definition py_get (data : json) (key : pystr) (dflt : json) : res json :=
  match data with
  | JObj d => inr (default dflt (d !! key))
  | _ => inl AttributeError
  end.

(** ** Difficulty scoring (lines 94-125) *)

Inductive level : Type := A1 | A2 | B1 | B2 | C1 | C2.

(** The float of a Python [int] that counts words or sentences (exact below
    2^53, so for every count a running program can reach). *)
Definition float_of_nat (n : nat) : float :=
  PrimFloat.of_uint63 (Uint63.of_Z (Z.of_nat n)).

(** [a / b] on two such [int]s: the correctly rounded binary64 quotient. *)
Definition true_div (a b : nat) : float :=
  PrimFloat.div (float_of_nat a) (float_of_nat b).

(** [len(w) > 7]. *)
Definition is_complex (w : pystr) : bool := 7 <? length w.

(** The loop of lines 102-105, started with the two counters. *)
Fixpoint count_loop (items : list json) (total_words complex_words : nat)
  : res (nat * nat) :=
  match items with
  | [] => inr (total_words, complex_words)
  | sentence :: rest =>
      words ← py_split sentence;
      count_loop rest (total_words + length words)
                 (complex_words + length (filter is_complex words))
  end.

(** Lines 114-125: the six bands, first match wins. *)
#[warnings="-inexact-float"]
Definition classify (avg_sentence_length complex_ratio : float) : level :=
  if (avg_sentence_length <? 10)%float && (complex_ratio <? 0.1)%float then A1
  else if (avg_sentence_length <? 15)%float && (complex_ratio <? 0.15)%float then A2
  else if (avg_sentence_length <? 20)%float && (complex_ratio <? 0.2)%float then B1
  else if (avg_sentence_length <? 25)%float && (complex_ratio <? 0.25)%float then B2
  else if (avg_sentence_length <? 30)%float && (complex_ratio <? 0.3)%float then C1
  else C2.

Definition calculate_difficulty (sentences : json) : res level :=
  if negb (truthy sentences) then inr A1
  else
    items ← py_iter sentences;
    counts ← count_loop items 0 0;
    let '(total_words, complex_words) := counts in
    if Nat.eqb total_words 0 then inr A1
    else
      n ← py_len sentences;
      let avg_sentence_length := true_div total_words n in
      let complex_ratio := true_div complex_words total_words in
      inr (classify avg_sentence_length complex_ratio).

(** ** The sentence document (create_pdf, lines 128-216) *)

(** A paragraph style: one of the sample style sheet, or a style derived
    from a parent with another font. *)
Inductive style : Type :=
| SampleStyle (name : string)
| ParagraphStyle (name : string) (parent : style) (fontName : string)
                 (fontSize spaceAfter : nat).

(** The flowables [create_pdf] puts in its story; a paragraph holds a text
    that was parsed. *)
Inductive flowable : Type :=
| Paragraph (text : pystr) (st : style)
| Spacer (width height : nat).

Definition font_paths : list string :=
  [ "C:/Windows/Fonts/malgun.ttf"; "C:/Windows/Fonts/gulim.ttc";
    "C:/Windows/Fonts/batang.ttc";
    "/System/Library/Fonts/AppleSDGothicNeo.ttc";
    "/usr/share/fonts/truetype/nanum/NanumGothic.ttf" ]%string.

(** The literals of the paragraphs: "<b>", "</b>", the words for
    "article topic: ", "sentence ", "original:" and "translation:". *)
Definition b_open : pystr := str "<b>".
Definition b_close : pystr := str "</b>".
Definition topic_label : pystr :=
  [44592; 49324; 32; 51452; 51228; 58; 32]%N.
Definition sentence_label : pystr := [47928; 51109; 32]%N.
Definition source_label : pystr := [50896; 47928; 58]%N.
Definition translation_label : pystr := [48264; 50669; 58]%N.

Section CreatePdf.

(** The collaborators: whether a font file exists and registers without
    error; whether reportlab's paragraph parser accepts a marked-up text;
    and [doc.build], which renders a story into the buffer or raises. *)
Variable font_usable : string -> bool.
Variable parses : pystr -> bool.
Variable build : list flowable -> res (list Byte.byte).

(** [Paragraph(text, style)]: the markup of the text is parsed when the
    paragraph is made, and a text that cannot be parsed raises. *)
Definition paragraph (text : pystr) (st : style) : res flowable :=
  if parses text then inr (Paragraph text st) else inl ValueError.

(** The loop of line 205 over [enumerate(zip(sentences, translations), 1)]:
    [i] is the number of the next pair and [story] the list built so far;
    lines 207-212 append four flowables for each pair. *)
Fixpoint story_loop (korean_heading korean_normal : style)
    (pairs : list (pystr * pystr)) (i : nat) (story : list flowable)
  : res (list flowable) :=
  match pairs with
  | [] => inr story
  | (sentence, translation) :: rest =>
      number ← paragraph (b_open ++ sentence_label ++ str_of_nat i ++ str ":"
                          ++ b_close) korean_heading;
      source ← paragraph (b_open ++ source_label ++ b_close ++ str " "
                          ++ sentence) korean_normal;
      target ← paragraph (b_open ++ translation_label ++ b_close ++ str " "
                          ++ translation) korean_normal;
      story_loop korean_heading korean_normal rest (S i)
                 (story ++ [number; source; target; Spacer 1 15])
  end.

(** Lines 130-212: the story handed to [doc.build]. *)
Definition create_story (sentences translations : list pystr) (topic : pystr)
  : res (list flowable) :=
  let font_registered := existsb font_usable font_paths in
  let '(korean_title, korean_heading, korean_normal) :=
    if font_registered then
      (ParagraphStyle "KoreanTitle" (SampleStyle "Title") "Korean" 16 20,
       ParagraphStyle "KoreanHeading" (SampleStyle "Heading2") "Korean" 12 10,
       ParagraphStyle "KoreanNormal" (SampleStyle "Normal") "Korean" 10 8)
    else
      (SampleStyle "Title", SampleStyle "Heading2", SampleStyle "Normal") in
  title ← paragraph (b_open ++ topic_label ++ topic ++ b_close) korean_title;
  story_loop korean_heading korean_normal (zip sentences translations) 1
             [title; Spacer 1 20].

(** [create_pdf]: the contents of the buffer the document was built into. *)
Definition create_pdf (sentences translations : list pystr) (topic : pystr)
  : res (list Byte.byte) :=
  story ← create_story sentences translations topic;
  build story.

End CreatePdf.

(** ** The vocabulary table (lines 388-406) *)

(** [s.encode('utf-8')] on one code point (below 0x110000, as in every
    [str]); a surrogate cannot be encoded. *)
Definition byte_of_N (n : N) : Byte.byte := byte_of_ascii (ascii_of_N n).

Definition utf8_char (c : N) : res (list Byte.byte) :=
  if (c <? 128)%N then inr [byte_of_N c]
  else if (c <? 2048)%N then
    inr [byte_of_N (192 + c / 64); byte_of_N (128 + c mod 64)]
  else if (c <? 65536)%N then
    if (55296 <=? c)%N && (c <=? 57343)%N then inl UnicodeEncodeError
    else inr [byte_of_N (224 + c / 4096); byte_of_N (128 + (c / 64) mod 64);
              byte_of_N (128 + c mod 64)]
  else
    inr [byte_of_N (240 + c / 262144); byte_of_N (128 + (c / 4096) mod 64);
         byte_of_N (128 + (c / 64) mod 64); byte_of_N (128 + c mod 64)].

Fixpoint encode_utf8 (s : pystr) : res (list Byte.byte) :=
  match s with
  | [] => inr []
  | c :: s' =>
      b ← utf8_char c;
      bs ← encode_utf8 s';
      inr (b ++ bs)
  end.

(** The column labels: word, meaning, example. *)
Definition col_word : pystr := [45800; 50612]%N.
Definition col_meaning : pystr := [46907]%N.
Definition col_example : pystr := [50696; 47928]%N.

(** A data frame of text columns: the labelled columns in the order of the
    dict it was built from, all of one length. *)
Definition DataFrame : Type := list (pystr * list pystr).

(** [pd.DataFrame(dict)] raises when the columns differ in length. *)
Definition make_frame (cols : list (pystr * list pystr)) : res DataFrame :=
  match cols with
  | [] => inr []
  | (_, c) :: rest =>
      if forallb (fun col => Nat.eqb (length (snd col)) (length c)) rest
      then inr cols else inl ValueError
  end.

Definition frame_len (df : DataFrame) : nat :=
  match df with
  | [] => 0
  | (_, c) :: _ => length c
  end.

(** The cells of row [i], one per column. *)
Definition frame_row (df : DataFrame) (i : nat) : list pystr :=
  map (fun col => nth i (snd col) []) df.

(** [os.linesep], the line terminator [to_csv] uses: a line feed, or a
    carriage return and a line feed on Windows. *)
Inductive platform : Type := Posix | Windows.

Definition linesep (p : platform) : pystr :=
  match p with
  | Posix => [10%N]
  | Windows => [13%N; 10%N]
  end.

Section Csv.

Variable lineterminator : pystr.

Definition comma : N := 44%N.
Definition quotechar : N := 34%N.

(** The csv writer with minimal quoting puts a field in quotes when it
    holds the delimiter, the quote character or a character of the line
    terminator. *)
Definition special (c : N) : bool :=
  (c =? comma)%N || (c =? quotechar)%N
  || existsb (fun t => (c =? t)%N) lineterminator.

Definition csv_field (field : pystr) : pystr :=
  if existsb special field then
    [quotechar]
    ++ flat_map (fun c => if (c =? quotechar)%N then [c; c] else [c]) field
    ++ [quotechar]
  else field.

(** The fields of a record, separated by commas. *)
Fixpoint join_fields (fields : list pystr) : pystr :=
  match fields with
  | [] => []
  | [f] => f
  | f :: rest => f ++ comma :: join_fields rest
  end.

(** [writer.writerow(fields)]; a record of one empty field is written as
    a pair of quotes. *)
Definition writerow (fields : list pystr) : pystr :=
  match fields with
  | [ [] ] => [quotechar; quotechar] ++ lineterminator
  | _ => join_fields (map csv_field fields) ++ lineterminator
  end.

(** [df.to_csv(index=False)]: the header row, then the rows in order. *)
Definition to_csv (df : DataFrame) : pystr :=
  writerow (map fst df)
  ++ concat (map (fun i => writerow (frame_row df i)) (seq 0 (frame_len df))).

End Csv.

(** ** Streamlit calls and the session state *)

(** The texts shown to the user; each constructor is one message of the
    source, with the values its f-string interpolates. *)
Inductive message : Type :=
| VocabularyMismatch (n_words n_meanings n_sentences : nat) (* line 297 *)
| SentenceMismatch (n_sentences n_translations : nat)       (* line 308 *)
| LengthAligned (min_length : nat)                          (* lines 305, 315 *)
| ParseFailed                                               (* line 330 *)
| ProcessingFailed (e : exn)                                (* line 334 *)
| RawResultLabel                                            (* lines 331, 335 *)
| UrlMissing                                                (* line 229 *)
| WordsExtracted (n_words : nat)                            (* line 408 *)
| NoWords.                                                  (* line 410 *)

Inductive st_call : Type :=
| st_warning (m : message)
| st_info (m : message)
| st_error (m : message)
| st_write (m : message)
| st_code (body : pystr)
| st_success (m : message)
| st_dataframe (df : DataFrame)
| st_download_button (data : list Byte.byte) (mime : string).

(** The dict stored under [st.session_state.analysis_data]. *)
Record analysis : Type := Analysis {
  topic : json;
  sentences : json;
  translations : json;
  words : json;
  word_meanings : json;
  word_sentences : json;
  difficulty_level : level
}.

Record session_state : Type := SessionState {
  analysis_data : option analysis;
  current_url : pystr
}.

(** Code that calls Streamlit and may raise: it extends the list of calls
    made so far and returns a value or the exception raised. *)
Definition ui (A : Type) : Type := list st_call -> list st_call * res A.

#[global] Instance ui_ret : MRet ui := fun A x log => (log, inr x).
#[global] Instance ui_bind : MBind ui := fun A B f m log =>
  match m log with
  | (log', inl e) => (log', inl e)
  | (log', inr x) => f x log'
  end.

(** One Streamlit call. *)
Definition call (c : st_call) : ui unit := fun log => (log ++ [c], inr tt).

(** A step that calls nothing. *)
Definition lift {A} (r : res A) : ui A := fun log => (log, r).

(** ** Length validation (lines 296-315) *)

Definition validate_vocabulary (words word_meanings word_sentences : json)
  : ui (json * json * json) :=
  n_words ← lift (py_len words);
  n_meanings ← lift (py_len word_meanings);
  mismatch ← (if negb (Nat.eqb n_words n_meanings) then mret true
              else n_sentences ← lift (py_len word_sentences);
                   mret (negb (Nat.eqb n_words n_sentences)));
  if (mismatch : bool) then
    n_sentences ← lift (py_len word_sentences);
    call (st_warning (VocabularyMismatch n_words n_meanings n_sentences));;
    let min_length := Nat.min n_words (Nat.min n_meanings n_sentences) in
    words' ← lift (py_take words min_length);
    word_meanings' ← lift (py_take word_meanings min_length);
    word_sentences' ← lift (py_take word_sentences min_length);
    call (st_info (LengthAligned min_length));;
    mret (words', word_meanings', word_sentences')
  else mret (words, word_meanings, word_sentences).

Definition validate_sentences (sentences translations : json)
  : ui (json * json) :=
  n_sentences ← lift (py_len sentences);
  n_translations ← lift (py_len translations);
  if negb (Nat.eqb n_sentences n_translations) then
    call (st_warning (SentenceMismatch n_sentences n_translations));;
    let min_length := Nat.min n_sentences n_translations in
    sentences' ← lift (py_take sentences min_length);
    translations' ← lift (py_take translations min_length);
    call (st_info (LengthAligned min_length));;
    mret (sentences', translations')
  else mret (sentences, translations).

(** ** The analysis-button handler (lines 227-336) *)

(** The default topic, U+C8FC U+C81C U+0020 U+C5C6 U+C74C. *)
Definition default_topic : pystr := [51452; 51228; 32; 50630; 51020]%N.

Section Handler.

(** The collaborators: the page loader, the completion chain and the
    JSON decoder.  Each returns a value or raises. *)
Variable load_page : pystr -> res pystr.
Variable chain_run : pystr -> res pystr.
Variable json_loads : pystr -> res json.

(** The body of the [try] statement, lines 272-326: the record to store. *)
Definition analyse_response (result : pystr) : ui analysis :=
  let json_str := extract_json result in
  data ← lift (json_loads json_str);
  topic ← lift (py_get data (str "topic") (JStr default_topic));
  sentences ← lift (py_get data (str "sentences") (JArr []));
  translations ← lift (py_get data (str "translations") (JArr []));
  words ← lift (py_get data (str "words") (JArr []));
  word_meanings ← lift (py_get data (str "word_meanings") (JArr []));
  word_sentences ← lift (py_get data (str "word_sentences") (JArr []));
  vocabulary ← validate_vocabulary words word_meanings word_sentences;
  let '(words, word_meanings, word_sentences) := vocabulary in
  pairs ← validate_sentences sentences translations;
  let '(sentences, translations) := pairs in
  difficulty_level ← lift (calculate_difficulty sentences);
  mret (Analysis topic sentences translations
                 words word_meanings word_sentences difficulty_level).

(** The [try] statement with its two [except] clauses, lines 271-336. *)
Definition process_response (state : session_state)
    (url_input result : pystr) : list st_call * session_state :=
  match analyse_response result [] with
  | (log, inr record) =>
      (log, SessionState (Some record) url_input)
  | (log, inl JSONDecodeError) =>
      (log ++ [st_error ParseFailed; st_write RawResultLabel;
               st_code result], state)
  | (log, inl e) =>
      (log ++ [st_error (ProcessingFailed e); st_write RawResultLabel;
               st_code result], state)
  end.

(** The whole handler.  An exception of the loader or of the chain is
    raised outside the [try] and leaves the handler. *)
Definition analysis_button (state : session_state) (url_input : pystr)
  : res (list st_call * session_state) :=
  if Nat.eqb (length url_input) 0 then
    inr ([st_warning UrlMissing], state)
  else
    text ← load_page url_input;
    result ← chain_run text;
    inr (process_response state url_input result).

End Handler.

(** ** The vocabulary tab (lines 384-410) *)

Section VocabularyTab.

Variable os : platform.

(** The tab, for a record whose three vocabulary fields are lists of
    strings.  The exceptions of [pd.DataFrame] and of [encode] are not
    caught by the script. *)
Definition vocabulary_tab (words word_meanings word_sentences : list pystr)
  : ui unit :=
  if negb (Nat.eqb (length words) 0)
     && negb (Nat.eqb (length word_meanings) 0)
     && negb (Nat.eqb (length word_sentences) 0)
  then
    vocab_df ← lift (make_frame [ (col_word, words);
                                  (col_meaning, word_meanings);
                                  (col_example, word_sentences) ]);
    call (st_dataframe vocab_df);;
    let csv := to_csv (linesep os) vocab_df in
    data ← lift (encode_utf8 csv);
    call (st_download_button data "text/csv");;
    call (st_success (WordsExtracted (length words)))
  else call (st_warning NoWords).

End VocabularyTab.

(** ** Session state: initialisation and reset (lines 218-222, 412-416) *)

(** Lines 219-222.  The two keys are created in the same run, so a session
    has both or none: a session that has them keeps its values, a new one
    starts without record and with the empty URL. *)
Definition session_init (stored : option session_state) : session_state :=
  match stored with
  | Some state => state
  | None => SessionState None []
  end.

(** Lines 413-416: the button that starts over; the script is then
    rerun. *)
Definition reset_button (state : session_state) : session_state :=
  SessionState None [].

(** ** Sample inputs *)

(** The object text [{"a":1}] and the two responses of the specification's
    examples. *)
Definition object_a : pystr :=
  str "{" ++ dquote ++ str "a" ++ dquote ++ str ":1}".
Definition object_b : pystr :=
  str "{" ++ dquote ++ str "b" ++ dquote ++ str ":2}".
Definition fenced_response : pystr :=
  str "prefix ```json " ++ object_a ++ str " ``` suffix".
Definition prose_response : pystr :=
  str "noise " ++ object_a ++ str " more " ++ object_b ++ str " noise".
Definition unclosed_response : pystr := str "ok ```json " ++ object_a.

(** A quoted JSON string literal. *)
Definition quoted (s : string) : pystr := dquote ++ str s ++ dquote.

(** A well-formed response: one sentence pair and one vocabulary entry. *)
Definition good_text : pystr :=
  str "{" ++ quoted "topic" ++ str ":" ++ quoted "Test" ++ str ","
  ++ quoted "sentences" ++ str ":[" ++ quoted "Hello world" ++ str "],"
  ++ quoted "translations" ++ str ":[" ++ quoted "Hallo Welt" ++ str "],"
  ++ quoted "words" ++ str ":[" ++ quoted "Hello" ++ str "],"
  ++ quoted "word_meanings" ++ str ":[" ++ quoted "Hallo" ++ str "],"
  ++ quoted "word_sentences" ++ str ":[" ++ quoted "Hello world" ++ str "]}".

Definition good_data : json :=
  JObj (list_to_map
    [ (str "topic", JStr (str "Test"));
      (str "sentences", JArr [JStr (str "Hello world")]);
      (str "translations", JArr [JStr (str "Hallo Welt")]);
      (str "words", JArr [JStr (str "Hello")]);
      (str "word_meanings", JArr [JStr (str "Hallo")]);
      (str "word_sentences", JArr [JStr (str "Hello world")]) ]).

Definition good_record : analysis :=
  Analysis (JStr (str "Test"))
           (JArr [JStr (str "Hello world")]) (JArr [JStr (str "Hallo Welt")])
           (JArr [JStr (str "Hello")]) (JArr [JStr (str "Hallo")])
           (JArr [JStr (str "Hello world")]) A1.

(** A decoded array where an object is expected. *)
Definition array_text : pystr := str "[1]".
Definition array_data : json := JArr [JInt 1].

(** A decoder that knows the two sample texts and rejects everything
    else. *)
Definition sample_loads (s : pystr) : res json :=
  if decide (s = good_text) then inr good_data
  else if decide (s = array_text) then inr array_data
  else inl JSONDecodeError.

Definition old_state : session_state :=
  SessionState (Some good_record) (str "https://example.org/a").

(** Vocabulary lists of lengths 5, 3 and 5. *)
Definition five_words : list json :=
  map (fun s => JStr (str s)) ["w1"; "w2"; "w3"; "w4"; "w5"]%string.
Definition three_meanings : list json :=
  map (fun s => JStr (str s)) ["m1"; "m2"; "m3"]%string.
Definition five_sentences : list json :=
  map (fun s => JStr (str s)) ["s1"; "s2"; "s3"; "s4"; "s5"]%string.

(** Twenty-five sentences of twenty-two words each, 121 of the 550 words
    being longer than seven characters: average length 22, ratio 0.22. *)
Definition sentence_of (long short : nat) : pystr :=
  concat (replicate long (str "language ")) ++ concat (replicate short (str "cat ")).
Definition b2_sentences : list pystr :=
  replicate 24 (sentence_of 5 17) ++ [sentence_of 1 21].

(** Two vocabulary entries, one of which needs quoting, and the bytes of
    their table on a platform whose line terminator is a line feed. *)
Definition two_words : list pystr :=
  [ str "hello"; str "say " ++ dquote ++ str "hi" ++ dquote ].
Definition two_meanings : list pystr := [ [50504; 45397]%N; str "a, b" ].
Definition two_examples : list pystr :=
  [ str "hello world"; str "she said: say " ++ dquote ++ str "hi" ++ dquote ].

Module TableBytes.
Import Byte.
Definition two_rows : list byte :=
  [ xeb; x8b; xa8; xec; x96; xb4; x2c; xeb; x9c; xbb; x2c; xec; x98; x88;
    xeb; xac; xb8; x0a;
    x68; x65; x6c; x6c; x6f; x2c; xec; x95; x88; xeb; x85; x95; x2c;
    x68; x65; x6c; x6c; x6f; x20; x77; x6f; x72; x6c; x64; x0a;
    x22; x73; x61; x79; x20; x22; x22; x68; x69; x22; x22; x22; x2c;
    x22; x61; x2c; x20; x62; x22; x2c;
    x22; x73; x68; x65; x20; x73; x61; x69; x64; x3a; x20; x73; x61; x79;
    x20; x22; x22; x68; x69; x22; x22; x22; x0a ].
End TableBytes.

(** Four sentences with four translations, and with three. *)
Definition four_sentences : list json :=
  map (fun s => JStr (str s)) ["One."; "Two."; "Three."; "Four."]%string.
Definition four_translations : list json :=
  map (fun s => JStr (str s)) ["Eins."; "Zwei."; "Drei."; "Vier."]%string.
Definition three_translations : list json :=
  map (fun s => JStr (str s)) ["Eins."; "Zwei."; "Drei."]%string.

(** ** Further sample inputs *)

(** Responses that decode to an object with a null vocabulary field, to the
    empty object, and to an object whose lists differ in length. *)
Definition null_words_text : pystr := str "{" ++ quoted "words" ++ str ":null}".
Definition null_words_data : gmap pystr json := {[ str "words" := JNull ]}.

Definition empty_object_text : pystr := str "{}".

Definition uneven_text : pystr :=
  str "{" ++ quoted "sentences" ++ str ":[" ++ quoted "One two." ++ str ","
  ++ quoted "Three." ++ str "],"
  ++ quoted "translations" ++ str ":[" ++ quoted "Eins zwei." ++ str "],"
  ++ quoted "words" ++ str ":[" ++ quoted "One" ++ str "],"
  ++ quoted "word_meanings" ++ str ":[" ++ quoted "Eins" ++ str ","
  ++ quoted "Zwei" ++ str "]}".
Definition uneven_data : gmap pystr json :=
  list_to_map
    [ (str "sentences", JArr [JStr (str "One two."); JStr (str "Three.")]);
      (str "translations", JArr [JStr (str "Eins zwei.")]);
      (str "words", JArr [JStr (str "One")]);
      (str "word_meanings", JArr [JStr (str "Eins"); JStr (str "Zwei")]) ].

(** A decoder that knows these texts too. *)
Definition more_loads (s : pystr) : res json :=
  if decide (s = null_words_text) then inr (JObj null_words_data)
  else if decide (s = empty_object_text) then inr (JObj ∅)
  else if decide (s = uneven_text) then inr (JObj uneven_data)
  else sample_loads s.

Definition url_b : pystr := str "https://example.org/b".

(** A loader and a chain that always answer, the chain with the
    well-formed response. *)
Definition sample_page (url : pystr) : res pystr := inr (str "Hello world").
Definition sample_chain (text : pystr) : res pystr := inr good_text.

(** Responses whose sentences are null, and whose second sentence is a
    number while there is one translation, with the objects they decode
    to. *)
Definition null_sentences_text : pystr :=
  str "{" ++ quoted "sentences" ++ str ":null,"
  ++ quoted "words" ++ str ":[" ++ quoted "One" ++ str "]}".
Definition null_sentences_data : gmap pystr json :=
  list_to_map [ (str "sentences", JNull); (str "words", JArr [JStr (str "One")]) ].

Definition number_sentence_text : pystr :=
  str "{" ++ quoted "sentences" ++ str ":[7," ++ quoted "Two." ++ str "],"
  ++ quoted "translations" ++ str ":[" ++ quoted "Sieben" ++ str "]}".
Definition number_sentence_data : gmap pystr json :=
  list_to_map [ (str "sentences", JArr [JInt 7; JStr (str "Two.")]);
                (str "translations", JArr [JStr (str "Sieben")]) ].

Definition odd_loads (s : pystr) : res json :=
  if decide (s = null_sentences_text) then inr (JObj null_sentences_data)
  else if decide (s = number_sentence_text) then inr (JObj number_sentence_data)
  else more_loads s.

(** ** Vocabulary of the statements *)

(** [sub] occurs in [s] at index [j] when it is a prefix of [drop j s]; it
    does not occur before index [n] when no [j < n] is such an index. *)
Definition no_earlier (sub s : pystr) (n : nat) : Prop :=
  forall j, j < n -> ~ sub `prefix_of` drop j s.

Definition absent (sub s : pystr) : Prop :=
  forall j, ~ sub `prefix_of` drop j s.

(** The brace-span branch as the specification words it: the result is the
    substring that starts at the first opening brace and ends at the last
    closing brace. *)
Definition brace_span_claim (raw : pystr) : Prop :=
  exists pre mid post,
    raw = pre ++ lbrace ++ mid ++ rbrace ++ post
    /\ (123%N ∉ pre) /\ (125%N ∉ post)
    /\ extract_json raw = lbrace ++ mid ++ rbrace.

(** The two alignment invariants of a stored record. *)
Definition aligned (r : analysis) : Prop :=
  (exists n, py_len (sentences r) = inr n /\ py_len (translations r) = inr n)
  /\ (exists n, py_len (words r) = inr n /\ py_len (word_meanings r) = inr n
                /\ py_len (word_sentences r) = inr n).

(** The two totals [calculate_difficulty] accumulates over a list of
    sentences: the number of whitespace-delimited tokens, and the number of
    those longer than seven characters. *)
Definition total_words (ss : list pystr) : nat :=
  sum_list_with (fun s => length (split s)) ss.

Definition complex_words (ss : list pystr) : nat :=
  sum_list_with (fun s => length (filter is_complex (split s))) ss.

(** The five bounded bands in increasing order of severity, each with its
    bound on the average sentence length and on the ratio of complex
    words; the level of a text is that of the first band both of whose
    bounds it is under, and C2 when there is none. *)
#[warnings="-inexact-float"]
Definition bands : list (float * float * level) :=
  [ (10, 0.1, A1); (15, 0.15, A2); (20, 0.2, B1); (25, 0.25, B2);
    (30, 0.3, C1) ]%float.

Definition within (avg ratio : float) (band : float * float * level) : bool :=
  (avg <? fst (fst band))%float && (ratio <? snd (fst band))%float.

Definition first_band (avg ratio : float) : level :=
  match List.find (within avg ratio) bands with
  | Some band => snd band
  | None => C2
  end.

(** A string of whitespace only (possibly empty). *)
Definition blank (s : pystr) : Prop := forallb isspace s = true.

(** The header row and the row of one vocabulary entry, as the table holds
    them: fields in csv form, separated by commas, ended by the line
    terminator. *)
Definition header_row (os : platform) : pystr :=
  col_word ++ [comma] ++ col_meaning ++ [comma] ++ col_example ++ linesep os.

Definition data_row (os : platform) (word meaning example : pystr) : pystr :=
  csv_field (linesep os) word ++ [comma] ++ csv_field (linesep os) meaning
  ++ [comma] ++ csv_field (linesep os) example ++ linesep os.

Definition table_text (os : platform)
    (words word_meanings word_sentences : list pystr) : pystr :=
  header_row os
  ++ concat (map (fun i => data_row os (nth i words []) (nth i word_meanings [])
                                    (nth i word_sentences []))
                 (seq 0 (length words))).

(** A string UTF-8 can encode: no surrogate code point. *)
Definition encodable (s : pystr) : Prop :=
  Forall (fun c => (c < 55296)%N \/ (57343 < c)%N) s.

(** Reading one csv field back: a field that starts with the quote
    character loses its two enclosing quotes, and each doubled quote
    inside it becomes one. *)
Fixpoint undouble (s : pystr) : pystr :=
  match s with
  | a :: rest =>
      match rest with
      | b :: s' =>
          if (a =? quotechar)%N && (b =? quotechar)%N then a :: undouble s'
          else a :: undouble rest
      | [] => [a]
      end
  | [] => []
  end.

Definition unquote (field : pystr) : pystr :=
  match field with
  | q :: rest => if (q =? quotechar)%N then undouble (removelast rest) else field
  | [] => []
  end.

(** A session state whose record, if any, satisfies the alignment
    invariants. *)
Definition aligned_state (state : session_state) : Prop :=
  forall record, analysis_data state = Some record -> aligned record.

(** ** Further vocabulary of the statements *)

(** [t] is a contiguous piece of [s]. *)
Definition substring (t s : pystr) : Prop :=
  exists pre post, s = pre ++ t ++ post.

(** A decoded value that is a [str]. *)
Definition is_str (v : json) : bool :=
  match v with
  | JStr _ => true
  | _ => false
  end.

(** The value the handler reads for one of the five array keys: the value
    under the key, and the empty list only when the key is missing. *)
Definition field (d : gmap pystr json) (key : string) : json :=
  default (JArr []) (d !! str key).

(** What validation shows for three vocabulary lists, and for the sentence
    and translation lists: nothing when the lengths agree, otherwise the
    warning with the original counts and the notice with the corrected
    one. *)
Definition vocabulary_messages (ws ms es : list json) : list st_call :=
  if Nat.eqb (length ws) (length ms) && Nat.eqb (length ws) (length es) then []
  else [ st_warning (VocabularyMismatch (length ws) (length ms) (length es));
         st_info (LengthAligned
                    (Nat.min (length ws) (Nat.min (length ms) (length es)))) ].

Definition sentence_messages (ss ts : list json) : list st_call :=
  if Nat.eqb (length ss) (length ts) then []
  else [ st_warning (SentenceMismatch (length ss) (length ts));
         st_info (LengthAligned (Nat.min (length ss) (length ts))) ].

(** The level of a list of sentences, in terms of its two totals. *)
Definition level_of (ss : list pystr) : level :=
  if Nat.eqb (length ss) 0 then A1
  else if Nat.eqb (total_words ss) 0 then A1
  else first_band (true_div (total_words ss) (length ss))
                  (true_div (complex_words ss) (total_words ss)).

(** What a flowable shows, whatever its style; and the font a paragraph is
    set in, [None] standing for the font of the sample style sheet. *)
Definition content (f : flowable) : pystr + nat * nat :=
  match f with
  | Paragraph text _ => inl text
  | Spacer w h => inr (w, h)
  end.

Definition style_font (st : style) : option string :=
  match st with
  | SampleStyle _ => None
  | ParagraphStyle _ _ fontName _ _ => Some fontName
  end.

Definition set_in (font : option string) (f : flowable) : Prop :=
  match f with
  | Paragraph _ st => style_font st = font
  | Spacer _ _ => True
  end.

(** A surrogate code point. *)
Definition surrogate (c : N) : bool := (55296 <=? c)%N && (c <=? 57343)%N.

(** The URL kept in the session is empty exactly when no record is. *)
Definition linked (state : session_state) : Prop :=
  analysis_data state = None <-> current_url state = [].

(** A call that only informs: a warning or a notice. *)
Definition informs (c : st_call) : Prop :=
  match c with
  | st_warning _ | st_info _ => True
  | _ => False
  end.

(** A text with no whitespace at either end (the empty text included). *)
Definition trimmed (s : pystr) : Prop :=
  match s with
  | [] => True
  | c :: _ => isspace c = false
  end
  /\ match rev s with
     | [] => True
     | c :: _ => isspace c = false
     end.

(** A sentence as its words and the whitespace around them: the pairs of
    a gap and the word after it, and the gap at the end.  Every gap is
    whitespace, every gap but the first is non-empty, and a word is
    non-empty and holds no whitespace. *)
Definition word (w : pystr) : Prop :=
  w <> [] /\ Forall (fun c => isspace c = false) w.

Definition layout : Type := list (pystr * pystr) * pystr.

Definition render (l : layout) : pystr :=
  concat (map (fun gw => fst gw ++ snd gw) (fst l)) ++ snd l.

Definition words_of (l : layout) : list pystr := map snd (fst l).

Definition well_spaced (l : layout) : Prop :=
  Forall (fun gw => blank (fst gw) /\ word (snd gw)) (fst l)
  /\ Forall (fun gw => fst gw <> []) (tail (fst l))
  /\ blank (snd l).

#[global] Instance well_spaced_dec (l : layout) : Decision (well_spaced l).
Proof. unfold well_spaced, word, blank. apply _. Defined.

(** The decimal numeral of a number: a non-empty string of digits, without
    a leading zero unless it is "0", whose value is the number. *)
Definition digit (c : N) : bool := (48 <=? c)%N && (c <=? 57)%N.

Definition decimal_value (s : pystr) : N :=
  fold_left (fun acc c => (10 * acc + (c - 48))%N) s 0%N.

Definition numeral (n : nat) (s : pystr) : Prop :=
  s <> [] /\ forallb digit s = true /\ (hd 48%N s = 48%N -> s = [48%N])
  /\ decimal_value s = N.of_nat n.


(** ** Reading the vocabulary table back *)

(** A Unicode scalar value: a code point below 0x110000 that is not a
    surrogate.  A text of scalar values is what UTF-8 encodes. *)
Definition scalar (c : N) : bool := negb (surrogate c) && (c <? 1114112)%N.

Definition scalar_text (s : pystr) : Prop := forallb scalar s = true.

(** A string holds no carriage return where the line terminator is a line
    feed alone. *)
Definition carriage_safe (os : platform) (s : pystr) : Prop :=
  match os with
  | Posix => existsb (N.eqb 13) s = false
  | Windows => True
  end.

(** The number a byte stands for. *)
Definition N_of_byte (b : Byte.byte) : N := N_of_ascii (ascii_of_byte b).

Module Utf8.

(** A continuation byte is 10xxxxxx. *)
Definition continuation (b : N) : bool := (128 <=? b)%N && (b <? 192)%N.

(** Decoding UTF-8: one to four bytes for each code point, told by the
    first byte; overlong forms, surrogates and code points from 0x110000
    are refused, as are stray and missing continuation bytes. *)
Fixpoint decode (bs : list N) : option pystr :=
  match bs with
  | [] => Some []
  | b0 :: r0 =>
      if (b0 <? 128)%N then cons b0 <$> decode r0
      else
        match r0 with
        | [] => None
        | b1 :: r1 =>
            if (192 <=? b0)%N && (b0 <? 224)%N then
              let c := ((b0 - 192) * 64 + (b1 - 128))%N in
              if continuation b1 && (128 <=? c)%N
              then cons c <$> decode r1 else None
            else
              match r1 with
              | [] => None
              | b2 :: r2 =>
                  if (224 <=? b0)%N && (b0 <? 240)%N then
                    let c := ((b0 - 224) * 4096 + (b1 - 128) * 64
                              + (b2 - 128))%N in
                    if continuation b1 && continuation b2 && (2048 <=? c)%N
                       && negb (surrogate c)
                    then cons c <$> decode r2 else None
                  else
                    match r2 with
                    | [] => None
                    | b3 :: r3 =>
                        if (240 <=? b0)%N && (b0 <? 248)%N then
                          let c := ((b0 - 240) * 262144 + (b1 - 128) * 4096
                                    + (b2 - 128) * 64 + (b3 - 128))%N in
                          if continuation b1 && continuation b2
                             && continuation b3 && (65536 <=? c)%N
                             && (c <? 1114112)%N
                          then cons c <$> decode r3 else None
                        else None
                    end
              end
        end
  end.

End Utf8.

Definition decode_utf8 (data : list Byte.byte) : option pystr :=
  Utf8.decode (map N_of_byte data).

Module CsvReader.

(** A reader of comma-delimited text.  A record ends at a line feed, at a
    carriage return or at a carriage return followed by a line feed; a
    field that starts with the quote character runs to its closing quote,
    a doubled quote inside standing for one; a blank line gives a record
    of no fields. *)
Inductive mode : Type :=
| RecordStart | FieldStart | Plain | Quoted | QuoteSeen | AfterCR.

(** The records read from a text are built from its end: the field being
    read is the first of the first record. *)
Definition add (c : N) (rows : list (list pystr)) : list (list pystr) :=
  match rows with
  | (cell :: row) :: rest => ((c :: cell) :: row) :: rest
  | [] :: rest => [[c]] :: rest
  | [] => [[[c]]]
  end.

Definition new_cell (rows : list (list pystr)) : list (list pystr) :=
  match rows with
  | row :: rest => ([] :: row) :: rest
  | [] => [[[]; []]]
  end.

Fixpoint scan (m : mode) (s : pystr) : list (list pystr) :=
  match s with
  | [] =>
      match m with
      | RecordStart | AfterCR => []
      | _ => [[[]]]
      end
  | c :: s' =>
      let field_end (otherwise : list (list pystr)) :=
        if (c =? 44)%N then new_cell (scan FieldStart s')
        else if (c =? 10)%N then [[]] :: scan RecordStart s'
        else if (c =? 13)%N then [[]] :: scan AfterCR s'
        else otherwise in
      let record_start :=
        if (c =? 34)%N then scan Quoted s'
        else if (c =? 10)%N then [] :: scan RecordStart s'
        else if (c =? 13)%N then [] :: scan AfterCR s'
        else field_end (add c (scan Plain s')) in
      match m with
      | RecordStart => record_start
      | AfterCR => if (c =? 10)%N then scan RecordStart s' else record_start
      | FieldStart =>
          if (c =? 34)%N then scan Quoted s'
          else field_end (add c (scan Plain s'))
      | Plain => field_end (add c (scan Plain s'))
      | Quoted =>
          if (c =? 34)%N then scan QuoteSeen s' else add c (scan Quoted s')
      | QuoteSeen =>
          if (c =? 34)%N then add c (scan Quoted s')
          else field_end (add c (scan Plain s'))
      end
  end.

End CsvReader.

Definition read_csv (text : pystr) : list (list pystr) :=
  CsvReader.scan CsvReader.RecordStart text.
(** ** Sample inputs: layouts, documents and tables *)

(** A response with an unclosed fence, whitespace on both sides of the
    object and one more character at the end. *)
Definition padded_unclosed_response : pystr :=
  str "ok ```json" ++ [32; 9]%N ++ object_a ++ [32; 10]%N ++ str "x".

(** Sentences given by their words: [long] words of eight letters and
    [short] words of three, after single spaces. *)
Definition sentence_with (long short : nat) : layout :=
  (map (pair (str " "))
       (replicate long (str "language") ++ replicate short (str "cat")), []).

(** Average 22 with ratio 0.22; average 5 with ratio 0.22; average 5 with
    ratio exactly 0.1; average exactly 10 with ratio 0; words of seven
    letters after tabs and a line feed; words of eight letters. *)
Definition average_22_ratio_22 : list layout :=
  replicate 24 (sentence_with 5 17) ++ [sentence_with 1 21].
Definition average_5_ratio_22 : list layout :=
  replicate 9 (sentence_with 1 4) ++ [sentence_with 2 3].
Definition average_5_ratio_10 : list layout :=
  [sentence_with 1 4; sentence_with 0 5].
Definition average_10_ratio_0 : list layout := [sentence_with 0 10].
Definition seven_letters : list layout :=
  [ ([ ([], str "student"); ([9; 32]%N, str "teacher") ], [10%N]) ].
Definition eight_letters : list layout :=
  [ ([ ([32%N], str "students"); ([10; 9]%N, str "teachers") ], []) ].

(** A stand-in for the paragraph parser: it accepts a text when its bold
    tags are balanced in number, so it rejects a lone opening tag. *)
Fixpoint occurrences (sub s : pystr) : nat :=
  (if startswith sub s then 1 else 0)
  + match s with
    | [] => 0
    | _ :: s' => occurrences sub s'
    end.

Definition balanced_bold (text : pystr) : bool :=
  Nat.eqb (occurrences b_open text) (occurrences b_close text).

(** A stand-in for [doc.build]: one byte for each flowable. *)
Definition sample_build (story : list flowable) : res (list Byte.byte) :=
  inr (map (fun f => match f with
                     | Paragraph _ _ => Byte.x50
                     | Spacer _ _ => Byte.x53
                     end) story).

(** A sentence with a lone opening tag. *)
Definition lone_tag : pystr := str "a <b> c".

(** Twelve sentences with their translations, and one sentence more. *)
Definition twelve_sentences : list pystr :=
  map str ["s1"; "s2"; "s3"; "s4"; "s5"; "s6"; "s7"; "s8"; "s9"; "s10";
           "s11"; "s12"]%string.
Definition twelve_translations : list pystr :=
  map str ["t1"; "t2"; "t3"; "t4"; "t5"; "t6"; "t7"; "t8"; "t9"; "t10";
           "t11"; "t12"]%string.


(** The four flowables expected for one pair, with the Korean labels as
    code points: "<b>문장 N:</b>", "<b>원문:</b> ...", "<b>번역:</b> ...". *)
Definition sample_block (heading normal : style)
    (number sentence translation : string) : list flowable :=
  [ Paragraph (str "<b>" ++ [47928; 51109; 32]%N ++ str number ++ str ":</b>")
              heading;
    Paragraph (str "<b>" ++ [50896; 47928]%N ++ str ":</b> " ++ str sentence)
              normal;
    Paragraph (str "<b>" ++ [48264; 50669]%N ++ str ":</b> " ++ str translation)
              normal;
    Spacer 1 15 ].

(** The title block expected for the topic "Food": "<b>기사 주제: Food</b>". *)
Definition sample_title (title : style) : list flowable :=
  [ Paragraph (str "<b>" ++ [44592; 49324; 32; 51452; 51228]%N
               ++ str ": Food</b>") title;
    Spacer 1 20 ].

(** A font check that finds the last of the five font files only. *)
Definition nanum_only (path : string) : bool :=
  String.eqb path "/usr/share/fonts/truetype/nanum/NanumGothic.ttf".

(** A word with a carriage return inside, with its meaning and example;
    and a word that is a lone surrogate. *)
Definition broken_word : pystr := str "a" ++ [13%N] ++ str "b".
Definition lone_surrogate : pystr := [55357%N].
(** * Properties *)

(** ** Searching and slicing *)

Lemma startswith_prefix (sub s : pystr) :
  startswith sub s = true <-> sub `prefix_of` s.
Proof.
  revert s. induction sub as [|a sub IH]; intros [|b s]; simpl.
  - split; [intros _; apply prefix_nil | done].
  - split; [intros _; apply prefix_nil | done].
  - split; [done | intros H; by apply prefix_nil_not in H].
  - rewrite andb_true_iff, N.eqb_eq, IH. split.
    + intros [-> H]. by apply prefix_cons.
    + intros H. split.
      * by apply prefix_cons_inv_1 in H.
      * by apply prefix_cons_inv_2 in H.
Qed.

Lemma startswith_false (sub s : pystr) :
  startswith sub s = false <-> ~ sub `prefix_of` s.
Proof.
  rewrite <- startswith_prefix. destruct (startswith sub s); naive_solver.
Qed.

Lemma no_earlier_tail (sub : pystr) c s k :
  no_earlier sub (c :: s) (S k) -> no_earlier sub s k.
Proof. intros H j Hj. apply (H (S j)). lia. Qed.

Lemma absent_tail (sub : pystr) c s : absent sub (c :: s) -> absent sub s.
Proof. intros H j. apply (H (S j)). Qed.

Lemma find_from_first (sub s : pystr) (k : nat) (i : Z) :
  sub `prefix_of` drop k s -> no_earlier sub s k ->
  find_from sub s i = (i + Z.of_nat k)%Z.
Proof.
  revert s i. induction k as [|k IH]; intros s i Hocc Hno.
  - rewrite drop_0 in Hocc. apply startswith_prefix in Hocc.
    destruct s; simpl in *; rewrite Hocc; lia.
  - assert (Hhd : startswith sub s = false).
    { apply startswith_false. apply (Hno 0). lia. }
    destruct s as [|c s].
    + exfalso. apply startswith_false in Hhd. apply Hhd. by rewrite drop_nil in Hocc.
    + simpl find_from. rewrite Hhd. simpl in Hocc.
      rewrite (IH s (i + 1)%Z Hocc (no_earlier_tail _ _ _ _ Hno)). lia.
Qed.

Lemma find_from_absent (sub s : pystr) (i : Z) :
  absent sub s -> find_from sub s i = (-1)%Z.
Proof.
  revert i. induction s as [|c s IH]; intros i Habs.
  - simpl. assert (H : startswith sub [] = false).
    { apply startswith_false. apply (Habs 0). }
    by rewrite H.
  - simpl. assert (H : startswith sub (c :: s) = false).
    { apply startswith_false. apply (Habs 0). }
    rewrite H. apply IH. by eapply absent_tail.
Qed.

Lemma contains_occurs (sub s : pystr) :
  contains sub s = true <-> exists j, sub `prefix_of` drop j s.
Proof.
  induction s as [|c s IH]; simpl.
  - rewrite orb_false_r, startswith_prefix. split.
    + intros H. by exists 0.
    + intros [j H]. by rewrite drop_nil in H.
  - rewrite orb_true_iff, startswith_prefix, IH. split.
    + intros [H | [j H]]; [by exists 0 | by exists (S j)].
    + intros [[|j] H]; [left; by rewrite drop_0 in H | right; by exists j].
Qed.

Lemma contains_absent (sub s : pystr) :
  contains sub s = false <-> absent sub s.
Proof.
  split.
  - intros H j Hj. assert (contains sub s = true) by (apply contains_occurs; eauto).
    congruence.
  - intros H. destruct (contains sub s) eqn:E; [|done].
    apply contains_occurs in E as [j Hj]. by destruct (H j).
Qed.

Lemma clip_inside (n : nat) (k : nat) : k <= n -> clip n (Z.of_nat k) = k.
Proof. intros H. unfold clip. destruct (Z.ltb_spec (Z.of_nat k) 0); lia. Qed.

Lemma find_first (sub s : pystr) (start k : nat) :
  start <= length s ->
  sub `prefix_of` drop (start + k) s -> no_earlier sub (drop start s) k ->
  find sub s (Z.of_nat start) = Z.of_nat (start + k).
Proof.
  intros Hlen Hocc Hno. unfold find. rewrite clip_inside by done.
  rewrite (find_from_first sub _ k).
  - lia.
  - by rewrite drop_drop.
  - done.
Qed.

Lemma find_absent (sub s : pystr) (start : nat) :
  start <= length s -> absent sub (drop start s) ->
  find sub s (Z.of_nat start) = (-1)%Z.
Proof.
  intros Hlen Habs. unfold find. rewrite clip_inside by done.
  by apply find_from_absent.
Qed.

Lemma slice_middle {A} (x y z : list A) :
  slice (x ++ y ++ z) (Z.of_nat (length x)) (Z.of_nat (length x + length y)) = y.
Proof.
  unfold slice. rewrite !length_app, !clip_inside by lia.
  rewrite drop_app_length.
  replace (length x + length y - length x) with (length y) by lia.
  by rewrite take_app_length.
Qed.

Lemma slice_to_last {A} (x y : list A) :
  slice (x ++ y) (Z.of_nat (length x)) (-1) = removelast y.
Proof.
  unfold slice. rewrite length_app, clip_inside by lia.
  rewrite drop_app_length. unfold clip.
  change (-1 <? 0)%Z with true. cbv iota.
  replace (Z.to_nat (-1 + Z.of_nat (length x + length y)) - length x)
    with (length y - 1) by lia.
  clear x. induction y as [|a y IH]; [done|].
  destruct y as [|b y]; [done|].
  simpl in *. rewrite Nat.sub_0_r in IH. by rewrite IH.
Qed.

Lemma slice_empty {A} (s : list A) (a b : nat) :
  b <= a -> slice s (Z.of_nat a) (Z.of_nat b) = [].
Proof.
  intros H. unfold slice, clip.
  destruct (Z.ltb_spec (Z.of_nat a) 0), (Z.ltb_spec (Z.of_nat b) 0); try lia.
  replace (_ - _) with 0 by lia. done.
Qed.

(** Index of the first and of the last occurrence of one character. *)
Lemma find_char (c : N) (pre rest : pystr) :
  c ∉ pre -> find [c] (pre ++ c :: rest) 0 = Z.of_nat (length pre).
Proof.
  intros Hpre. apply (find_first [c] _ 0 (length pre)).
  - lia.
  - simpl. rewrite drop_app_length. apply prefix_cons, prefix_nil.
  - rewrite drop_0. intros j Hj [t Ht].
    apply Hpre. apply list_elem_of_lookup. exists j.
    assert (H : (pre ++ c :: rest) !! j = Some c).
    { rewrite <- (Nat.add_0_r j), <- lookup_drop, Ht. done. }
    by rewrite lookup_app_l in H.
Qed.

Lemma rfind_from_last (c : N) (s post : pystr) (i last : Z) :
  c ∉ post ->
  rfind_from [c] (s ++ c :: post) i last = (i + Z.of_nat (length s))%Z.
Proof.
  intros Hpost. revert i last. induction s as [|a s IH]; intros i last.
  - simpl. rewrite N.eqb_refl. simpl.
    assert (H : forall j l, rfind_from [c] post j l = l).
    { clear -Hpost. induction post as [|b post IH]; intros j l; [done|].
      simpl. apply not_elem_of_cons in Hpost as [Hne Hpost].
      destruct (N.eqb_spec c b); [done|]. simpl. by apply IH. }
    rewrite H. lia.
  - simpl. rewrite IH. lia.
Qed.

Lemma rfind_char (c : N) (s post : pystr) :
  c ∉ post -> rfind [c] (s ++ c :: post) = Z.of_nat (length s).
Proof. intros H. unfold rfind. by rewrite rfind_from_last. Qed.

Lemma contains_char (c : N) (pre rest : pystr) :
  contains [c] (pre ++ c :: rest) = true.
Proof.
  apply contains_occurs. exists (length pre).
  rewrite drop_app_length. apply prefix_cons, prefix_nil.
Qed.

(** A pattern that occurs has a first occurrence. *)
Lemma first_occurrence (sub s : pystr) :
  contains sub s = true ->
  exists pre rest, s = pre ++ sub ++ rest /\ no_earlier sub s (length pre).
Proof.
  induction s as [|c s IH]; simpl.
  - rewrite orb_false_r. intros [rest ->]%startswith_prefix.
    exists [], rest. split; [done|]. intros j Hj. simpl in Hj. lia.
  - destruct (startswith sub (c :: s)) eqn:Hhd; simpl.
    + intros _. apply startswith_prefix in Hhd as [rest ->].
      exists [], rest. split; [done|]. intros j Hj. simpl in Hj. lia.
    + intros (pre & rest & -> & Hno)%IH.
      exists (c :: pre), rest. split; [done|].
      intros [|j] Hj.
      * by apply startswith_false.
      * apply Hno. simpl in Hj. lia.
Qed.

(** ** The string operations on small inputs *)

Example extract_plain : extract_json (str "no json here") = str "no json here".
Proof. reflexivity. Qed.

Example extract_fenced : extract_json fenced_response = object_a.
Proof. reflexivity. Qed.

Example find_ex :
  find fence (str "ab```cd```") 0 = 2%Z
  /\ find fence (str "ab```cd```") 3 = 7%Z
  /\ find fence (str "ab```cd```") 8 = (-1)%Z
  /\ rfind rbrace (str "{}{}x") = 3%Z.
Proof. repeat split. Qed.

Example slice_ex :
  slice (str "abcdef") 2 4 = str "cd"
  /\ slice (str "abcdef") 2 (-1) = str "cde"
  /\ slice (str "abcdef") 4 2 = []
  /\ slice (str "abcdef") 0 9 = str "abcdef".
Proof. repeat split. Qed.

Example strip_ex : strip (str "  a b  ") = str "a b".
Proof. reflexivity. Qed.

Example split_ex :
  split (str "  Hello   brave new world ") =
  [str "Hello"; str "brave"; str "new"; str "world"].
Proof. reflexivity. Qed.

Example str_of_nat_ex : str_of_nat 120 = str "120" /\ str_of_nat 0 = str "0".
Proof. split; reflexivity. Qed.

Example header_bytes :
  encode_utf8 (header_row Posix)
  = inr [ Byte.xeb; Byte.x8b; Byte.xa8; Byte.xec; Byte.x96; Byte.xb4; Byte.x2c;
          Byte.xeb; Byte.x9c; Byte.xbb; Byte.x2c; Byte.xec; Byte.x98; Byte.x88;
          Byte.xeb; Byte.xac; Byte.xb8; Byte.x0a ].
Proof. reflexivity. Qed.

Example surrogate_not_encodable : encode_utf8 [55296%N] = inl UnicodeEncodeError.
Proof. reflexivity. Qed.

Example difficulty_short :
  calculate_difficulty (JArr [JStr (str "a b c d e")]) = inr A1.
Proof. reflexivity. Qed.

Example difficulty_not_strings :
  calculate_difficulty (JArr [JStr (str "a b"); JInt 3]) = inl AttributeError.
Proof. reflexivity. Qed.

Example good_response_stored :
  process_response sample_loads (SessionState None []) (str "u") good_text
  = ([], SessionState (Some good_record) (str "u")).
Proof. vm_compute. reflexivity. Qed.

(** ** JSON extraction *)

(** Proves that a pattern does not start at any of the first indices of a
    literal string. *)
Ltac no_occurrence_before :=
  let j := fresh "j" in
  let Hj := fresh "Hj" in
  intros j Hj;
  repeat (destruct j as [|j]; [apply startswith_false; reflexivity|]);
  cbv in Hj; lia.

Ltac not_in_literal := apply (bool_decide_unpack _); vm_compute; exact I.

Lemma contains_at (sub pre rest : pystr) :
  contains sub (pre ++ sub ++ rest) = true.
Proof.
  apply contains_occurs. exists (length pre).
  rewrite drop_app_length. by apply prefix_app_r.
Qed.

Lemma fence_json_start (raw pre rest : pystr) :
  raw = pre ++ fence_json ++ rest ->
  no_earlier fence_json raw (length pre) ->
  (find fence_json raw 0 + 7)%Z = Z.of_nat (length (pre ++ fence_json)).
Proof.
  intros -> Hno.
  rewrite (find_first fence_json _ 0 (length pre)).
  - rewrite length_app. change (length fence_json) with 7. lia.
  - lia.
  - rewrite Nat.add_0_l, drop_app_length. by apply prefix_app_r.
  - by rewrite drop_0.
Qed.

(** C4. When the raw text holds a json-tagged fence marker and a closing
    fence marker after it, the extraction returns the text between the end
    of the (first) json-tagged marker and the next fence marker, with
    leading and trailing whitespace removed.  By [first_occurrence] every
    such text splits as the first hypothesis asks, with the two markers at
    their first occurrences. *)
Theorem fenced_extraction (raw pre body post : pystr) :
  raw = pre ++ fence_json ++ body ++ fence ++ post ->
  no_earlier fence_json raw (length pre) ->
  no_earlier fence (body ++ fence ++ post) (length body) ->
  extract_json raw = strip body.
Proof.
  intros Hraw Hfirst Hnext. unfold extract_json.
  rewrite (fence_json_start raw pre _ Hraw Hfirst).
  rewrite Hraw at 1. rewrite contains_at.
  assert (Hsplit : raw = (pre ++ fence_json) ++ body ++ fence ++ post)
    by (by rewrite Hraw, <- app_assoc).
  rewrite (find_first fence raw _ (length body)).
  - rewrite Hsplit at 1. by rewrite slice_middle.
  - rewrite Hsplit, !length_app. lia.
  - rewrite Hsplit, <- drop_drop, !drop_app_length. by apply prefix_app_r.
  - by rewrite Hsplit, drop_app_length.
Qed.

Lemma fenced_extraction_witness :
  extract_json fenced_response = object_a.
Proof.
  apply (fenced_extraction fenced_response (str "prefix ")
           (str " " ++ object_a ++ str " ") (str " suffix")).
  - reflexivity.
  - no_occurrence_before.
  - no_occurrence_before.
Defined.

Lemma unclosed_fence_slice (raw pre rest : pystr) :
  raw = pre ++ fence_json ++ rest ->
  no_earlier fence_json raw (length pre) ->
  absent fence rest ->
  extract_json raw = strip (removelast rest).
Proof.
  intros Hraw Hfirst Hnone. unfold extract_json.
  rewrite (fence_json_start raw pre _ Hraw Hfirst).
  rewrite Hraw at 1. rewrite contains_at.
  assert (Hsplit : raw = (pre ++ fence_json) ++ rest)
    by (by rewrite Hraw, <- app_assoc).
  rewrite find_absent.
  - rewrite Hsplit at 1. by rewrite slice_to_last.
  - rewrite Hsplit, !length_app. lia.
  - by rewrite Hsplit, drop_app_length.
Qed.

Lemma lstrip_blank (lead s : pystr) : blank lead -> lstrip (lead ++ s) = lstrip s.
Proof.
  unfold blank. induction lead as [|c lead IH]; simpl; [done|].
  intros [Hc Hl]%andb_true_iff. rewrite Hc. by apply IH.
Qed.

Lemma lstrip_all_blank (s : pystr) : blank s -> lstrip s = [].
Proof.
  intros H. rewrite <- (app_nil_r s). by rewrite lstrip_blank.
Qed.

Lemma blank_rev (s : pystr) : blank s -> blank (rev s).
Proof.
  unfold blank. rewrite !forallb_forall. intros H c Hc.
  apply H. by apply in_rev.
Qed.

(** What [strip] does, said without it: whitespace around a trimmed core
    is removed and the core is kept. *)
Lemma strip_core (lead core trail : pystr) :
  blank lead -> blank trail -> trimmed core ->
  strip (lead ++ core ++ trail) = core.
Proof.
  intros Hlead Htrail [Hhead Hlast]. unfold strip, rstrip.
  rewrite lstrip_blank by done.
  destruct core as [|c core].
  - simpl. rewrite (lstrip_all_blank trail Htrail). simpl. done.
  - simpl app. simpl lstrip. rewrite Hhead.
    change (c :: core ++ trail) with ((c :: core) ++ trail).
    rewrite rev_app_distr, lstrip_blank by (by apply blank_rev).
    destruct (rev (c :: core)) as [|d r] eqn:Hrev.
    + apply (f_equal (@length N)) in Hrev. rewrite length_rev in Hrev.
      discriminate.
    + simpl. rewrite Hlast. rewrite <- Hrev. by rewrite rev_involutive.
Qed.

Lemma lstrip_split (s : pystr) :
  exists lead,
    s = lead ++ lstrip s /\ blank lead
    /\ match lstrip s with
       | [] => True
       | c :: _ => isspace c = false
       end.
Proof.
  induction s as [|c s (lead & Hs & Hb & Hh)]; [by exists []|].
  cbn [lstrip]. destruct (isspace c) eqn:Hc.
  - exists (c :: lead). cbn [app]. rewrite <- Hs. repeat split; try done.
    unfold blank in *. cbn [forallb]. by rewrite Hc, Hb.
  - by exists [].
Qed.

(** Every text is a trimmed core between two runs of whitespace. *)
Lemma trim_exists (s : pystr) :
  exists lead core trail,
    s = lead ++ core ++ trail /\ blank lead /\ blank trail /\ trimmed core.
Proof.
  destruct (lstrip_split s) as (lead & Hs & Hlead & Hhead).
  destruct (lstrip_split (rev (lstrip s))) as (tr & Hr & Htr & Hlast).
  assert (Ht : lstrip s = rev (lstrip (rev (lstrip s))) ++ rev tr).
  { rewrite <- rev_app_distr, <- Hr. by rewrite rev_involutive. }
  exists lead, (rev (lstrip (rev (lstrip s)))), (rev tr).
  split; [by rewrite <- Ht|]. split; [done|]. split; [by apply blank_rev|].
  unfold trimmed. rewrite rev_involutive. split; [|done].
  destruct (rev (lstrip (rev (lstrip s)))) as [|c w]; [done|].
  by rewrite Ht in Hhead.
Qed.

(** C9. When the raw text holds a json-tagged fence marker and no fence
    marker after it, the extraction returns the text after the marker
    without the last character of the raw text and without the whitespace
    at its two ends: if that text is a core with no whitespace at either
    end, between a run of whitespace before it and one after it (which by
    [trim_exists] every text is), the result is the core. *)
Theorem unclosed_fence_extraction (raw pre rest lead core trail : pystr) :
  raw = pre ++ fence_json ++ rest ->
  no_earlier fence_json raw (length pre) ->
  absent fence rest ->
  removelast rest = lead ++ core ++ trail ->
  blank lead -> blank trail -> trimmed core ->
  extract_json raw = core.
Proof.
  intros Hraw Hfirst Hnone Hrest Hlead Htrail Hcore.
  rewrite (unclosed_fence_slice raw pre rest Hraw Hfirst Hnone), Hrest.
  by apply strip_core.
Qed.

Lemma unclosed_fence_extraction_witness :
  extract_json padded_unclosed_response = object_a
  /\ extract_json unclosed_response = removelast object_a.
Proof.
  split.
  - apply (unclosed_fence_extraction padded_unclosed_response (str "ok ")
             ([32; 9]%N ++ object_a ++ [32; 10]%N ++ str "x")
             [32; 9]%N object_a [32; 10]%N).
    + reflexivity.
    + no_occurrence_before.
    + intros j.
      do 14 (destruct j as [|j]; [apply startswith_false; reflexivity|]).
      cbn [drop]. apply startswith_false. reflexivity.
    + reflexivity.
    + reflexivity.
    + reflexivity.
    + split; reflexivity.
  - apply (unclosed_fence_extraction unclosed_response (str "ok ")
             (str " " ++ object_a) (str " ") (removelast object_a) []).
    + reflexivity.
    + no_occurrence_before.
    + intros j.
      do 10 (destruct j as [|j]; [apply startswith_false; reflexivity|]).
      cbn [drop]. apply startswith_false. reflexivity.
    + reflexivity.
    + reflexivity.
    + reflexivity.
    + split; reflexivity.
Defined.

(** C3, as stated, fails: a text without a json-tagged fence whose only
    closing brace comes before its only opening brace yields the empty
    string, which is no brace-to-brace substring. *)
Lemma brace_span_counterexample :
  contains fence_json (str "}{") = false
  /\ contains lbrace (str "}{") = true
  /\ contains rbrace (str "}{") = true
  /\ extract_json (str "}{") = []
  /\ ~ brace_span_claim (str "}{").
Proof.
  repeat split; try reflexivity.
  intros (pre & mid & post & _ & _ & _ & H).
  vm_compute in H. discriminate.
Qed.

(** C3, amended. Without a json-tagged fence marker: when the first opening
    brace comes before the last closing brace, the extraction returns the
    substring from the first opening brace to the last closing brace,
    both included; when the last closing brace comes before the first
    opening brace, it returns the empty string. *)
Theorem brace_span_extraction (raw : pystr) :
  contains fence_json raw = false ->
  (forall pre mid post,
      raw = pre ++ lbrace ++ mid ++ rbrace ++ post ->
      123%N ∉ pre -> 125%N ∉ post ->
      extract_json raw = lbrace ++ mid ++ rbrace)
  /\ (forall a b c,
      raw = a ++ rbrace ++ b ++ lbrace ++ c ->
      123%N ∉ a ++ rbrace ++ b -> 125%N ∉ b ++ lbrace ++ c ->
      extract_json raw = []).
Proof.
  intros Hfence. unfold extract_json. rewrite Hfence.
  change lbrace with [123%N]. change rbrace with [125%N]. split.
  - intros pre mid post Hraw Hpre Hpost.
    assert (Hl : raw = pre ++ 123%N :: (mid ++ [125%N] ++ post)) by done.
    assert (Hr : raw = (pre ++ [123%N] ++ mid) ++ 125%N :: post).
    { rewrite Hraw. by rewrite <- !app_assoc. }
    assert (Hc1 : contains [123%N] raw = true) by (rewrite Hl; apply contains_char).
    assert (Hc2 : contains [125%N] raw = true) by (rewrite Hr; apply contains_char).
    assert (Hf : find [123%N] raw 0 = Z.of_nat (length pre))
      by (rewrite Hl; by apply find_char).
    assert (Hrf : rfind [125%N] raw = Z.of_nat (length (pre ++ [123%N] ++ mid)))
      by (rewrite Hr; by apply rfind_char).
    rewrite Hc1, Hc2, Hf, Hrf. simpl andb. cbv iota.
    replace (Z.of_nat (length (pre ++ [123%N] ++ mid)) + 1)%Z
      with (Z.of_nat (length pre + length ([123%N] ++ mid ++ [125%N]))).
    + rewrite Hraw.
      replace (pre ++ [123%N] ++ mid ++ [125%N] ++ post)
        with (pre ++ ([123%N] ++ mid ++ [125%N]) ++ post).
      * by rewrite slice_middle.
      * by rewrite <- !app_assoc.
    + rewrite !length_app. simpl. lia.
  - intros a b c Hraw Ha Hc.
    assert (Hl : raw = (a ++ [125%N] ++ b) ++ 123%N :: c).
    { rewrite Hraw. by rewrite <- !app_assoc. }
    assert (Hr : raw = a ++ 125%N :: (b ++ [123%N] ++ c)) by done.
    assert (Hc1 : contains [123%N] raw = true) by (rewrite Hl; apply contains_char).
    assert (Hc2 : contains [125%N] raw = true) by (rewrite Hr; apply contains_char).
    assert (Hf : find [123%N] raw 0 = Z.of_nat (length (a ++ [125%N] ++ b)))
      by (rewrite Hl; by apply find_char).
    assert (Hrf : rfind [125%N] raw = Z.of_nat (length a))
      by (rewrite Hr; by apply rfind_char).
    rewrite Hc1, Hc2, Hf, Hrf. simpl andb. cbv iota.
    replace (Z.of_nat (length a) + 1)%Z with (Z.of_nat (length a + 1)) by lia.
    apply slice_empty. rewrite !length_app. simpl. lia.
Qed.

Lemma brace_span_extraction_witness :
  extract_json prose_response = object_a ++ str " more " ++ object_b.
Proof.
  apply (proj1 (brace_span_extraction prose_response eq_refl) (str "noise ")
           (dquote ++ str "a" ++ dquote ++ str ":1} more {"
            ++ dquote ++ str "b" ++ dquote ++ str ":2")
           (str " noise")).
  - reflexivity.
  - not_in_literal.
  - not_in_literal.
Defined.

(** ** The [ui] monad *)

Lemma ui_bind_inr {A B} (m : ui A) (f : A -> ui B) log log' (y : B) :
  (m ≫= f) log = (log', inr y) ->
  exists log1 x, m log = (log1, inr x) /\ f x log1 = (log', inr y).
Proof.
  unfold mbind, ui_bind. destruct (m log) as [log1 [e|x]]; [done|].
  intros H. by exists log1, x.
Qed.

Lemma ui_bind_run {A B} (m : ui A) (f : A -> ui B) log log1 (x : A) :
  m log = (log1, inr x) -> (m ≫= f) log = f x log1.
Proof. unfold mbind, ui_bind. by intros ->. Qed.

Lemma ui_bind_raise {A B} (m : ui A) (f : A -> ui B) log log1 (e : exn) :
  m log = (log1, inl e) -> (m ≫= f) log = (log1, inl e).
Proof. unfold mbind, ui_bind. by intros ->. Qed.

Lemma lift_inr {A} (r : res A) log log' (x : A) :
  lift r log = (log', inr x) -> r = inr x /\ log' = log.
Proof. unfold lift. intros [= -> ->]. done. Qed.

Lemma call_inr (c : st_call) log log' (u : unit) :
  call c log = (log', inr u) -> log' = log ++ [c].
Proof. unfold call. by intros [= <-]. Qed.

Lemma mret_inr {A} (x y : A) log log' :
  (mret x : ui A) log = (log', inr y) -> x = y /\ log' = log.
Proof. unfold mret, ui_ret. by intros [= -> ->]. Qed.

(** Takes a successful run of monadic code apart, step by step. *)
Ltac ui_inv H :=
  repeat match type of H with
  | (_ ≫= _) _ = (_, inr _) =>
      let log1 := fresh "log" in
      let x := fresh "x" in
      let H1 := fresh "Hstep" in
      apply ui_bind_inr in H as (log1 & x & H1 & H)
  end.

(** ** Python sequences *)

Lemma slice_take {A} (l : list A) (n : nat) : slice l 0 (Z.of_nat n) = take n l.
Proof.
  unfold slice, clip. change (0 <? 0)%Z with false.
  destruct (Z.ltb_spec (Z.of_nat n) 0); [lia|]. cbv iota.
  change (Z.to_nat 0) with 0. rewrite Nat.min_0_l, drop_0, Nat.sub_0_r, Nat2Z.id.
  destruct (Nat.le_ge_cases n (length l)).
  - by rewrite Nat.min_l.
  - rewrite Nat.min_r, !take_ge by lia. done.
Qed.

Lemma py_take_len (v v' : json) (n k : nat) :
  py_len v = inr k -> py_take v n = inr v' -> py_len v' = inr (Nat.min n k).
Proof.
  destruct v; simpl; try done.
  - intros [= <-] [= <-]. simpl. by rewrite slice_take, length_take.
  - intros [= <-] [= <-]. simpl. by rewrite slice_take, length_take.
Qed.

(** ** Validation *)

Lemma validate_vocabulary_aligned (w m s w' m' s' : json) log log' :
  validate_vocabulary w m s log = (log', inr (w', m', s')) ->
  exists n, py_len w' = inr n /\ py_len m' = inr n /\ py_len s' = inr n.
Proof.
  unfold validate_vocabulary. intros H.
  apply ui_bind_inr in H as (log1 & nw & [Hw ->]%lift_inr & H).
  apply ui_bind_inr in H as (log2 & nm & [Hm ->]%lift_inr & H).
  apply ui_bind_inr in H as (log3 & mismatch & Hmis & H).
  destruct mismatch.
  - apply ui_bind_inr in H as (log4 & ns & [Hs ->]%lift_inr & H).
    apply ui_bind_inr in H as (log5 & [] & _ & H).
    apply ui_bind_inr in H as (log6 & w1 & [Hw1 ->]%lift_inr & H).
    apply ui_bind_inr in H as (log7 & m1 & [Hm1 ->]%lift_inr & H).
    apply ui_bind_inr in H as (log8 & s1 & [Hs1 ->]%lift_inr & H).
    apply ui_bind_inr in H as (log9 & [] & _ & H).
    apply mret_inr in H as [[= <- <- <-] _].
    exists (Nat.min nw (Nat.min nm ns)).
    rewrite (py_take_len _ _ _ _ Hw Hw1), (py_take_len _ _ _ _ Hm Hm1),
      (py_take_len _ _ _ _ Hs Hs1).
    repeat split; f_equal; lia.
  - apply mret_inr in H as [[= <- <- <-] _].
    destruct (Nat.eqb_spec nw nm) as [<-|Hne]; simpl in Hmis.
    + apply ui_bind_inr in Hmis as (log4 & ns & [Hs ->]%lift_inr & Hmis).
      apply mret_inr in Hmis as [Heq _].
      apply negb_false_iff, Nat.eqb_eq in Heq as <-. by exists nw.
    + by apply mret_inr in Hmis as [? _].
Qed.

Lemma validate_sentences_aligned (s t s' t' : json) log log' :
  validate_sentences s t log = (log', inr (s', t')) ->
  exists n, py_len s' = inr n /\ py_len t' = inr n.
Proof.
  unfold validate_sentences. intros H.
  apply ui_bind_inr in H as (log1 & ns & [Hs ->]%lift_inr & H).
  apply ui_bind_inr in H as (log2 & nt & [Ht ->]%lift_inr & H).
  destruct (Nat.eqb_spec ns nt) as [<-|Hne]; simpl in H.
  - apply mret_inr in H as [[= <- <-] _]. by exists ns.
  - apply ui_bind_inr in H as (log3 & [] & _ & H).
    apply ui_bind_inr in H as (log4 & s1 & [Hs1 ->]%lift_inr & H).
    apply ui_bind_inr in H as (log5 & t1 & [Ht1 ->]%lift_inr & H).
    apply ui_bind_inr in H as (log6 & [] & _ & H).
    apply mret_inr in H as [[= <- <-] _].
    exists (Nat.min ns nt).
    rewrite (py_take_len _ _ _ _ Hs Hs1), (py_take_len _ _ _ _ Ht Ht1).
    split; f_equal; lia.
Qed.

(** C2. Three vocabulary lists whose lengths are not all equal are each cut
    to their first [min] elements, where [min] is the least of the three
    lengths; a warning with the three original counts and a notice with the
    corrected count are shown, and validation goes on. *)
Theorem vocabulary_truncation (ws ms ss : list json) (log : list st_call) :
  ~ (length ws = length ms /\ length ws = length ss) ->
  validate_vocabulary (JArr ws) (JArr ms) (JArr ss) log
  = (log ++ [st_warning (VocabularyMismatch (length ws) (length ms) (length ss));
             st_info (LengthAligned
                        (Nat.min (length ws) (Nat.min (length ms) (length ss))))],
     inr (JArr (take (Nat.min (length ws) (Nat.min (length ms) (length ss))) ws),
          JArr (take (Nat.min (length ws) (Nat.min (length ms) (length ss))) ms),
          JArr (take (Nat.min (length ws) (Nat.min (length ms) (length ss))) ss))).
Proof.
  intros Hne. unfold validate_vocabulary, mbind, ui_bind, lift, call, mret, ui_ret.
  simpl py_len. cbv iota beta.
  assert (Hmis : (if negb (length ws =? length ms) then (log, @inr exn bool true)
                  else (log, inr (negb (length ws =? length ss))))
                 = (log, inr true)).
  { destruct (Nat.eqb_spec (length ws) (length ms)) as [E1|]; [|done].
    destruct (Nat.eqb_spec (length ws) (length ss)) as [E2|]; [|done].
    by destruct Hne. }
  destruct (negb (length ws =? length ms)); simpl in Hmis |- *.
  - rewrite !slice_take, <- app_assoc. done.
  - injection Hmis as ->. simpl. rewrite !slice_take, <- app_assoc. done.
Qed.

Lemma vocabulary_truncation_witness :
  validate_vocabulary (JArr five_words) (JArr three_meanings)
                      (JArr five_sentences) []
  = ([st_warning (VocabularyMismatch 5 3 5); st_info (LengthAligned 3)],
     inr (JArr (take 3 five_words), JArr (take 3 three_meanings),
          JArr (take 3 five_sentences))).
Proof.
  apply (vocabulary_truncation five_words three_meanings five_sentences []).
  intros [H _]. vm_compute in H. discriminate.
Defined.

(** ** The handler *)

Section HandlerFacts.

Variable json_loads : pystr -> res json.

(** A run of the [try] body that returns stores what it returns. *)
Lemma process_success (state : session_state) (url_input result : pystr)
    (log : list st_call) (record : analysis) :
  analyse_response json_loads result [] = (log, inr record) ->
  process_response json_loads state url_input result
  = (log, SessionState (Some record) url_input).
Proof. intros Hrun. unfold process_response. by rewrite Hrun. Qed.

(** A run of the [try] body that raises ends in one of the two [except]
    clauses, and both leave the session state alone. *)
Lemma process_failure (state : session_state) (url_input result : pystr)
    (log : list st_call) (e : exn) :
  analyse_response json_loads result [] = (log, inl e) ->
  exists m,
    process_response json_loads state url_input result
    = (log ++ [st_error m; st_write RawResultLabel; st_code result], state).
Proof.
  intros Hrun. unfold process_response. rewrite Hrun. destruct e; eauto.
Qed.

Lemma returned_record_aligned (result : pystr) (log : list st_call)
    (record : analysis) :
  analyse_response json_loads result [] = (log, inr record) -> aligned record.
Proof.
  unfold analyse_response. intros Hrun.
  apply ui_bind_inr in Hrun as (l1 & data & _ & H).
  apply ui_bind_inr in H as (l2 & topic & _ & H).
  apply ui_bind_inr in H as (l3 & sentences & _ & H).
  apply ui_bind_inr in H as (l4 & translations & _ & H).
  apply ui_bind_inr in H as (l5 & words & _ & H).
  apply ui_bind_inr in H as (l6 & word_meanings & _ & H).
  apply ui_bind_inr in H as (l7 & word_sentences & _ & H).
  apply ui_bind_inr in H as (l8 & [[w m] s] & Hvocab & H).
  apply ui_bind_inr in H as (l9 & [s' t'] & Hpairs & H).
  apply ui_bind_inr in H as (l10 & lvl & _ & H).
  apply mret_inr in H as [<- _].
  split; simpl.
  - by eapply validate_sentences_aligned.
  - by eapply validate_vocabulary_aligned.
Qed.

(** C1. The record stored by a successful run has as many translations
    as sentences, and as many meanings and example sentences as words. *)
Theorem stored_record_aligned (state : session_state)
    (url_input result : pystr) (log : list st_call) (record : analysis) :
  analyse_response json_loads result [] = (log, inr record) ->
  process_response json_loads state url_input result
  = (log, SessionState (Some record) url_input)
  /\ aligned record.
Proof.
  intros Hrun. split.
  - by apply process_success.
  - by eapply returned_record_aligned.
Qed.

(** C7. When decoding the extracted text fails, the handler shows the
    parse error and the raw response and returns the session state it
    was given; when any later step raises, it shows the error and the
    raw response after what was shown before, and again returns the
    session state it was given. *)
Theorem failure_keeps_state (state : session_state)
    (url_input result : pystr) :
  (json_loads (extract_json result) = inl JSONDecodeError ->
   process_response json_loads state url_input result
   = ([st_error ParseFailed; st_write RawResultLabel; st_code result], state))
  /\ (forall log e,
       analyse_response json_loads result [] = (log, inl e) ->
       exists m,
         process_response json_loads state url_input result
         = (log ++ [st_error m; st_write RawResultLabel; st_code result],
            state)).
Proof.
  split.
  - intros Hfail. unfold process_response, analyse_response.
    rewrite (ui_bind_raise _ _ [] [] JSONDecodeError); [done|].
    unfold lift. by rewrite Hfail.
  - intros log e. apply process_failure.
Qed.

(** X3. Alignment is an invariant of the session state: the handler keeps
    it, whatever the response and the decoder. *)
Lemma handler_keeps_alignment (state : session_state)
    (url_input result : pystr) :
  aligned_state state ->
  aligned_state (snd (process_response json_loads state url_input result)).
Proof.
  intros Hinv.
  destruct (analyse_response json_loads result []) as [log [e|record]] eqn:Hrun.
  - destruct (process_failure state url_input result log e Hrun) as [m ->].
    done.
  - rewrite (process_success state url_input result log record Hrun).
    intros r [= <-]. by eapply returned_record_aligned.
Qed.

End HandlerFacts.

Lemma stored_record_aligned_witness :
  process_response sample_loads old_state (str "https://example.org/b") good_text
  = ([], SessionState (Some good_record) (str "https://example.org/b"))
  /\ aligned good_record.
Proof.
  apply (stored_record_aligned sample_loads old_state
           (str "https://example.org/b") good_text [] good_record).
  vm_compute. reflexivity.
Defined.

Lemma failure_keeps_state_witness :
  process_response sample_loads old_state (str "https://example.org/b")
                   prose_response
  = ([st_error ParseFailed; st_write RawResultLabel; st_code prose_response],
     old_state)
  /\ exists m,
      process_response sample_loads old_state (str "https://example.org/b")
                       array_text
      = ([st_error m; st_write RawResultLabel; st_code array_text], old_state).
Proof.
  split.
  - apply (proj1 (failure_keeps_state sample_loads old_state
                    (str "https://example.org/b") prose_response)).
    vm_compute. reflexivity.
  - apply (proj2 (failure_keeps_state sample_loads old_state
                    (str "https://example.org/b") array_text) [] AttributeError).
    vm_compute. reflexivity.
Defined.

(** ** Further facts about validation and the handler *)

(** X1. Sentence and translation lists of different lengths are both cut
    to the first [min] elements, with a warning and a notice. *)
Lemma sentence_truncation (ss ts : list json) (log : list st_call) :
  length ss <> length ts ->
  validate_sentences (JArr ss) (JArr ts) log
  = (log ++ [st_warning (SentenceMismatch (length ss) (length ts));
             st_info (LengthAligned (Nat.min (length ss) (length ts)))],
     inr (JArr (take (Nat.min (length ss) (length ts)) ss),
          JArr (take (Nat.min (length ss) (length ts)) ts))).
Proof.
  intros Hne. unfold validate_sentences, mbind, ui_bind, lift, call, mret, ui_ret.
  simpl py_len. cbv iota beta.
  destruct (Nat.eqb_spec (length ss) (length ts)); [done|]. simpl.
  by rewrite !slice_take, <- app_assoc.
Qed.

(** Vocabulary lists of one length pass validation unchanged and without
    any message. *)
Lemma validation_unchanged (ws ms ss : list json) (log : list st_call) :
  length ws = length ms -> length ws = length ss ->
  validate_vocabulary (JArr ws) (JArr ms) (JArr ss) log
  = (log, inr (JArr ws, JArr ms, JArr ss)).
Proof.
  intros Hm Hs. unfold validate_vocabulary, mbind, ui_bind, lift, mret, ui_ret.
  simpl py_len. cbv iota beta. rewrite <- Hm, Nat.eqb_refl. simpl.
  by rewrite <- Hs, Nat.eqb_refl.
Qed.

(** X2. Sentence and translation lists of one length pass validation
    unchanged and without any message. *)
Lemma sentence_validation_unchanged (ss ts : list json) (log : list st_call) :
  length ss = length ts ->
  validate_sentences (JArr ss) (JArr ts) log = (log, inr (JArr ss, JArr ts)).
Proof.
  intros Hl. unfold validate_sentences, mbind, ui_bind, lift, mret, ui_ret.
  simpl py_len. cbv iota beta. by rewrite <- Hl, Nat.eqb_refl.
Qed.

Lemma sentence_truncation_witness :
  validate_sentences (JArr four_sentences) (JArr three_translations) []
  = ([st_warning (SentenceMismatch 4 3); st_info (LengthAligned 3)],
     inr (JArr (take 3 four_sentences), JArr three_translations)).
Proof.
  apply (sentence_truncation four_sentences three_translations []).
  vm_compute. discriminate.
Defined.

Lemma sentence_validation_unchanged_witness :
  validate_sentences (JArr four_sentences) (JArr four_translations) []
  = ([], inr (JArr four_sentences, JArr four_translations)).
Proof.
  apply (sentence_validation_unchanged four_sentences four_translations []).
  reflexivity.
Defined.

Lemma good_record_aligned : aligned good_record.
Proof. split; [exists 1 | exists 1]; repeat split. Qed.

Lemma handler_keeps_alignment_witness :
  aligned_state old_state
  /\ aligned_state (snd (process_response sample_loads old_state
                           (str "https://example.org/b") prose_response)).
Proof.
  assert (H : aligned_state old_state).
  { intros r [= <-]. apply good_record_aligned. }
  split; [exact H|].
  apply (handler_keeps_alignment sample_loads old_state
           (str "https://example.org/b") prose_response H).
Defined.

(** ** Difficulty scoring *)

Lemma count_loop_strings (ss : list pystr) (t c : nat) :
  count_loop (JStr <$> ss) t c = inr (t + total_words ss, c + complex_words ss).
Proof.
  revert t c. induction ss as [|s ss IH]; intros t c; simpl.
  - unfold total_words, complex_words. simpl. by rewrite !Nat.add_0_r.
  - rewrite IH. unfold total_words, complex_words. simpl.
    by rewrite !Nat.add_assoc.
Qed.

Lemma classify_first_band (avg ratio : float) :
  classify avg ratio = first_band avg ratio.
Proof.
  unfold classify, first_band, bands, within. simpl.
  repeat match goal with
         | |- context [(?a <? ?b)%float] => destruct (a <? b)%float; simpl
         end; reflexivity.
Qed.

Lemma calculate_difficulty_strings (ss : list pystr) :
  calculate_difficulty (JArr (JStr <$> ss))
  = inr (if Nat.eqb (length ss) 0 then A1
         else if Nat.eqb (total_words ss) 0 then A1
         else first_band (true_div (total_words ss) (length ss))
                         (true_div (complex_words ss) (total_words ss))).
Proof.
  unfold calculate_difficulty. simpl truthy. rewrite length_fmap.
  destruct (Nat.eqb (length ss) 0); [done|]. simpl negb. cbv iota.
  simpl py_iter. unfold mbind at 1. unfold res_bind.
  rewrite count_loop_strings. unfold mbind, res_bind. simpl.
  destruct (Nat.eqb (total_words ss) 0); [done|].
  by rewrite length_fmap, classify_first_band.
Qed.

Lemma split_acc_blank (s : pystr) : blank s -> split_acc s [] = [].
Proof.
  unfold blank. induction s as [|c s IH]; simpl; [done|].
  intros [Hc Hs]%andb_true_iff. rewrite Hc. by apply IH.
Qed.

Lemma total_words_cons (s : pystr) (ss : list pystr) :
  total_words (s :: ss) = length (split s) + total_words ss.
Proof. reflexivity. Qed.

Lemma total_words_blank (ss : list pystr) :
  Forall blank ss -> total_words ss = 0.
Proof.
  induction 1 as [|s ss Hs _ IH]; [done|].
  rewrite total_words_cons, IH. unfold split. by rewrite split_acc_blank.
Qed.

(** *** Sentences by their words *)

Lemma split_acc_word (w s cur : pystr) :
  Forall (fun c => isspace c = false) w ->
  split_acc (w ++ s) cur = split_acc s (rev w ++ cur).
Proof.
  intros Hw. revert cur. induction Hw as [|c w Hc _ IH]; intros cur; [done|].
  simpl. rewrite Hc, IH. by rewrite <- app_assoc.
Qed.

Lemma split_acc_gap (g s : pystr) :
  blank g -> split_acc (g ++ s) [] = split_acc s [].
Proof.
  unfold blank. induction g as [|c g IH]; simpl; [done|].
  intros [Hc Hg]%andb_true_iff. rewrite Hc. by apply IH.
Qed.

Lemma split_acc_flush (g s cur : pystr) :
  blank g -> g <> [] -> cur <> [] ->
  split_acc (g ++ s) cur = rev cur :: split_acc s [].
Proof.
  intros Hg Hne Hcur. destruct g as [|c g]; [done|].
  unfold blank in Hg. simpl in Hg. apply andb_true_iff in Hg as [Hc Hg].
  simpl. rewrite Hc. destruct cur; [done|].
  by rewrite split_acc_gap.
Qed.

Lemma split_after_word (pairs : list (pystr * pystr)) (w trail : pystr) :
  word w ->
  Forall (fun gw => blank (fst gw) /\ word (snd gw)) pairs ->
  Forall (fun gw => fst gw <> []) pairs ->
  blank trail ->
  split_acc (concat (map (fun gw => fst gw ++ snd gw) pairs) ++ trail) (rev w)
  = w :: map snd pairs.
Proof.
  intros Hw Hpairs. revert w Hw.
  induction Hpairs as [|[g w'] pairs [Hg Hw'] _ IH]; intros w [Hne Hw] Hgaps Htrail.
  - assert (Hcur : rev w <> []).
    { intros H. apply Hne. by rewrite <- (rev_involutive w), H. }
    simpl. destruct trail as [|c trail].
    + simpl. destruct (rev w) eqn:E; [done|]. by rewrite <- E, rev_involutive.
    + rewrite <- (app_nil_r (c :: trail)).
      rewrite split_acc_flush by done. by rewrite rev_involutive.
  - apply Forall_cons in Hgaps as [Hgne Hgaps]. simpl in Hg, Hw', Hgne.
    assert (Hcur : rev w <> []).
    { intros H. apply Hne. by rewrite <- (rev_involutive w), H. }
    cbn [map concat fst snd]. rewrite <- !app_assoc.
    rewrite split_acc_flush, rev_involutive by done.
    rewrite split_acc_word by apply Hw'. rewrite app_nil_r.
    by rewrite IH.
Qed.

Lemma split_render (l : layout) : well_spaced l -> split (render l) = words_of l.
Proof.
  destruct l as [pairs trail]. intros (Hpairs & Hgaps & Htrail).
  unfold split, render, words_of. simpl in *.
  destruct pairs as [|[g w] pairs].
  - simpl. by apply split_acc_blank.
  - apply Forall_cons in Hpairs as [[Hg Hw] Hpairs]. simpl in Hg, Hw, Hgaps.
    cbn [map concat fst snd]. rewrite <- !app_assoc.
    rewrite split_acc_gap by done.
    rewrite split_acc_word by apply Hw. rewrite app_nil_r.
    by apply split_after_word.
Qed.

(** Every sentence is the rendering of a well-spaced layout. *)
Lemma layout_exists (s : pystr) : exists l, well_spaced l /\ render l = s.
Proof.
  induction s as [|c s ((pairs & trail) & (Hpairs & Hgaps & Htrail) & Hs)].
  - exists ([], []). repeat split; constructor.
  - unfold render in Hs. simpl in Hs, Hpairs, Hgaps, Htrail.
    destruct (isspace c) eqn:Hc.
    + destruct pairs as [|[g w] pairs].
      * exists ([], c :: trail). unfold render. simpl in *. subst s.
        repeat split; try constructor. unfold blank in *. simpl.
        by rewrite Hc.
      * exists ((c :: g, w) :: pairs, trail). unfold render. simpl in *.
        apply Forall_cons in Hpairs as [[Hg Hw] Hpairs]. simpl in Hg, Hw.
        split; [|by rewrite <- Hs].
        repeat split; try done.
        apply Forall_cons. split; [|done]. split; [|done].
        unfold blank in *. simpl. by rewrite Hc.
    + destruct pairs as [|[g w] pairs].
      * exists ([([], [c])], trail). unfold render. simpl in *.
        assert (Htb : lstrip s = []) by (subst s; by apply lstrip_all_blank).
        split; [|by rewrite <- Hs].
        repeat split; try done; repeat constructor; done.
      * apply Forall_cons in Hpairs as [[Hg Hw] Hpairs]. simpl in Hg, Hw.
        destruct g as [|d g].
        -- exists (([], c :: w) :: pairs, trail). unfold render. simpl in *.
           split; [|by rewrite <- Hs].
           repeat split; try done.
           apply Forall_cons. split; [|done]. split; [done|].
           destruct Hw as [Hne Hw]. split; [done|]. by constructor.
        -- exists (([], [c]) :: (d :: g, w) :: pairs, trail).
           unfold render. simpl in *.
           split; [|by rewrite <- Hs].
           repeat split; try done.
           ++ apply Forall_cons. split.
              ** split; [done|]. split; [done|]. by repeat constructor.
              ** apply Forall_cons. by split.
           ++ apply Forall_cons. by split.
Qed.

Lemma total_words_render (ls : list layout) :
  Forall well_spaced ls ->
  total_words (render <$> ls) = length (concat (words_of <$> ls)).
Proof.
  induction 1 as [|l ls Hl _ IH]; [done|].
  rewrite !fmap_cons. cbn [concat]. rewrite total_words_cons, length_app, IH.
  by rewrite split_render.
Qed.

Lemma complex_words_render (ls : list layout) :
  Forall well_spaced ls ->
  complex_words (render <$> ls)
  = length (filter (fun w => 7 < length w) (concat (words_of <$> ls))).
Proof.
  induction 1 as [|l ls Hl _ IH]; [done|].
  rewrite !fmap_cons. cbn [concat].
  change (complex_words (render l :: (render <$> ls)))
    with (length (filter is_complex (split (render l)))
          + complex_words (render <$> ls)).
  rewrite IH, filter_app, length_app, split_render by done.
  f_equal. f_equal.
  apply list_filter_iff. intros w. unfold is_complex.
  rewrite Is_true_true. apply Nat.ltb_lt.
Qed.

(** C5. For a non-empty list of sentences with at least one word, the level
    is that of the first of the bands A1 (average length under 10, ratio
    under 0.10), A2 (15, 0.15), B1 (20, 0.20), B2 (25, 0.25), C1 (30, 0.30)
    whose two bounds hold, and C2 when none does, where the average is the
    number of words by the number of sentences, the ratio is the number of
    words of more than seven characters by the number of words, and both
    quotients are binary64 divisions.  The sentences are given by their
    words and the whitespace around them, which by [layout_exists] every
    sentence has. *)
Theorem difficulty_bands (sentences : list layout) :
  Forall well_spaced sentences ->
  sentences <> [] ->
  concat (words_of <$> sentences) <> [] ->
  let float_of := fun k : nat => PrimFloat.of_uint63 (Uint63.of_Z (Z.of_nat k)) in
  let words := concat (words_of <$> sentences) in
  let long_words := filter (fun w => 7 < length w) words in
  calculate_difficulty (JArr (JStr <$> (render <$> sentences)))
  = inr (first_band
           (PrimFloat.div (float_of (length words)) (float_of (length sentences)))
           (PrimFloat.div (float_of (length long_words)) (float_of (length words)))).
Proof.
  intros Hsp Hne Hwords. cbv zeta.
  rewrite calculate_difficulty_strings, length_fmap.
  rewrite total_words_render, complex_words_render by done.
  destruct sentences as [|l ls]; [done|]. cbn [length Nat.eqb].
  destruct (concat (words_of <$> l :: ls)) as [|w ws] eqn:Hc; [done|].
  cbn [length Nat.eqb]. reflexivity.
Qed.

Lemma difficulty_bands_witness :
  calculate_difficulty (JArr (JStr <$> (render <$> average_22_ratio_22))) = inr B2
  /\ calculate_difficulty (JArr (JStr <$> (render <$> average_5_ratio_22))) = inr B2
  /\ calculate_difficulty (JArr (JStr <$> (render <$> average_5_ratio_10))) = inr A2
  /\ calculate_difficulty (JArr (JStr <$> (render <$> average_10_ratio_0))) = inr A2
  /\ calculate_difficulty (JArr (JStr <$> (render <$> seven_letters))) = inr A1
  /\ calculate_difficulty (JArr (JStr <$> (render <$> eight_letters))) = inr C2.
Proof.
  repeat apply conj;
    match goal with
    | |- calculate_difficulty (JArr (JStr <$> (render <$> ?ls))) = _ =>
        refine (eq_trans (difficulty_bands ls _ _ _) _);
        [ apply (bool_decide_unpack _); vm_compute; exact I
        | discriminate
        | vm_compute; discriminate
        | vm_compute; reflexivity ]
    end.
Defined.

(** C6. The level of the empty list of sentences is A1, and so is the
    level of every list of sentences that holds no word at all, such as a
    list of empty or whitespace-only sentences; the scorer returns on
    these inputs. *)
Theorem difficulty_without_words :
  calculate_difficulty (JArr []) = inr A1
  /\ (forall ss, total_words ss = 0 ->
                 calculate_difficulty (JArr (JStr <$> ss)) = inr A1)
  /\ (forall ss, Forall blank ss ->
                 calculate_difficulty (JArr (JStr <$> ss)) = inr A1).
Proof.
  assert (H : forall ss, total_words ss = 0 ->
                         calculate_difficulty (JArr (JStr <$> ss)) = inr A1).
  { intros ss Hz. rewrite calculate_difficulty_strings, Hz. simpl.
    by destruct (Nat.eqb (length ss) 0). }
  split; [done|]. split; [done|].
  intros ss Hb. apply H. by apply total_words_blank.
Qed.

Lemma difficulty_without_words_witness :
  calculate_difficulty (JArr (JStr <$> [str ""; str "   "; [9; 10; 12288]%N]))
  = inr A1.
Proof.
  apply (proj2 (proj2 difficulty_without_words)).
  repeat constructor.
Defined.

(** ** The vocabulary table *)

Lemma writerow_three (lt a b c : pystr) :
  writerow lt [a; b; c]
  = csv_field lt a ++ [comma] ++ csv_field lt b ++ [comma] ++ csv_field lt c ++ lt.
Proof.
  unfold writerow.
  destruct a; cbn [map join_fields app];
    rewrite <- app_assoc; cbn [app]; rewrite <- app_assoc; reflexivity.
Qed.

Lemma header_row_written (os : platform) :
  writerow (linesep os) [col_word; col_meaning; col_example] = header_row os.
Proof. destruct os; reflexivity. Qed.

Lemma to_csv_table (os : platform) (words word_meanings word_sentences : list pystr) :
  to_csv (linesep os) [ (col_word, words); (col_meaning, word_meanings);
                        (col_example, word_sentences) ]
  = table_text os words word_meanings word_sentences.
Proof.
  unfold to_csv, table_text. cbn [map fst frame_len].
  rewrite header_row_written. f_equal. f_equal. apply map_ext. intros i.
  unfold frame_row. cbn [map snd]. by rewrite writerow_three.
Qed.

Lemma encode_utf8_app (s t : pystr) bs bt :
  encode_utf8 s = inr bs -> encode_utf8 t = inr bt ->
  encode_utf8 (s ++ t) = inr (bs ++ bt).
Proof.
  revert bs. induction s as [|c s IH]; intros bs; simpl.
  - by intros [= <-] ->.
  - destruct (utf8_char c) as [e|b]; [done|]. simpl.
    destruct (encode_utf8 s) as [e|bs']; [done|]. simpl.
    intros [= <-] Ht. rewrite (IH bs' eq_refl Ht). simpl. by rewrite app_assoc.
Qed.

Lemma encode_utf8_encodable (s : pystr) :
  encodable s -> exists bs, encode_utf8 s = inr bs.
Proof.
  induction 1 as [|c s Hc _ [bs IH]]; simpl; [by eexists|].
  rewrite IH. unfold utf8_char.
  destruct (c <? 128)%N; [by eexists|].
  destruct (c <? 2048)%N; [by eexists|].
  destruct (c <? 65536)%N; [|by eexists].
  destruct (N.leb_spec 55296 c), (N.leb_spec c 57343); simpl;
    try (by eexists); lia.
Qed.

Lemma encodable_app (s t : pystr) : encodable s -> encodable t -> encodable (s ++ t).
Proof. unfold encodable. intros. by apply Forall_app. Qed.

Lemma encodable_linesep (os : platform) : encodable (linesep os).
Proof. destruct os; by repeat constructor. Qed.

Lemma encodable_csv_field (lt s : pystr) : encodable s -> encodable (csv_field lt s).
Proof.
  intros Hs. unfold csv_field. destruct (existsb _ s); [|done].
  apply encodable_app; [|apply encodable_app].
  - by repeat constructor.
  - induction Hs as [|c s Hc _ IH]; simpl; [constructor|].
    apply encodable_app; [|done].
    destruct (c =? quotechar)%N; repeat (apply Forall_cons_2; [exact Hc|]);
      apply Forall_nil_2.
  - by repeat constructor.
Qed.

Lemma encodable_nth (l : list pystr) (i : nat) :
  Forall encodable l -> encodable (nth i l []).
Proof.
  intros H. revert i. induction H; intros [|i]; simpl; try done; constructor.
Qed.

Lemma encodable_table (os : platform) (ws ms ss : list pystr) :
  Forall encodable ws -> Forall encodable ms -> Forall encodable ss ->
  encodable (table_text os ws ms ss).
Proof.
  intros Hw Hm Hs. unfold table_text. apply encodable_app.
  - destruct os; by repeat constructor.
  - unfold encodable. apply Forall_concat, Forall_map, Forall_forall.
    intros i _. unfold data_row.
    repeat apply encodable_app;
      try (by apply encodable_csv_field, encodable_nth);
      try apply encodable_linesep;
      by repeat constructor.
Qed.

(** ** Reading a field back *)

Lemma undouble_other (c : N) (rest : pystr) :
  c <> quotechar -> undouble (c :: rest) = c :: undouble rest.
Proof.
  intros Hne%N.eqb_neq. destruct rest as [|b rest]; [done|].
  change (undouble (c :: b :: rest))
    with (if (c =? quotechar)%N && (b =? quotechar)%N then c :: undouble rest
          else c :: undouble (b :: rest)).
  by rewrite Hne.
Qed.

Lemma undouble_doubled (s : pystr) :
  undouble (flat_map (fun c => if (c =? quotechar)%N then [c; c] else [c]) s) = s.
Proof.
  induction s as [|c s IH]; [done|].
  cbn [flat_map]. destruct (N.eqb_spec c quotechar) as [->|Hne].
  - cbn [app undouble]. rewrite N.eqb_refl. cbn [andb]. by rewrite IH.
  - cbn [app]. by rewrite undouble_other, IH.
Qed.

(** X4. No field is lost in the table: reading a written field back gives
    the string that was written. *)
Lemma csv_field_unquote (lt field : pystr) : unquote (csv_field lt field) = field.
Proof.
  unfold csv_field. destruct (existsb (special lt) field) eqn:Hsp.
  - cbn [app unquote]. rewrite N.eqb_refl.
    by rewrite removelast_last, undouble_doubled.
  - destruct field as [|c s]; [done|].
    cbn [unquote]. simpl in Hsp. apply orb_false_iff in Hsp as [Hc _].
    unfold special in Hc. apply orb_false_iff in Hc as [Hc _].
    apply orb_false_iff in Hc as [_ Hc]. by rewrite Hc.
Qed.

(** ** Reading the vocabulary table back *)

Section Reading.

Import CsvReader.

Lemma scan_plain_field (f rest : pystr) :
  Forall (fun c => c <> 44 /\ c <> 34 /\ c <> 10 /\ c <> 13)%N f ->
  scan Plain (f ++ rest) = foldr add (scan Plain rest) f.
Proof.
  induction 1 as [|c f (Hc & _ & Hl & Hr) _ IH]; [done|].
  cbn [app foldr scan].
  apply N.eqb_neq in Hc, Hl, Hr. by rewrite Hc, Hl, Hr, IH.
Qed.

Lemma scan_start_field (m : mode) (f rest : pystr) :
  m = RecordStart \/ m = FieldStart ->
  Forall (fun c => c <> 44 /\ c <> 34 /\ c <> 10 /\ c <> 13)%N f ->
  f <> [] ->
  scan m (f ++ rest) = foldr add (scan Plain rest) f.
Proof.
  intros Hm Hf Hne. destruct Hf as [|c f (Hc & Hq & Hl & Hr) Hf]; [done|].
  cbn [app foldr]. rewrite <- (scan_plain_field f rest Hf).
  apply N.eqb_neq in Hc, Hq, Hl, Hr.
  destruct Hm as [-> | ->]; cbn [scan]; by rewrite ?Hc, ?Hq, ?Hl, ?Hr.
Qed.

Lemma scan_quoted_field (f rest : pystr) :
  scan Quoted
    (flat_map (fun c => if (c =? quotechar)%N then [c; c] else [c]) f
     ++ quotechar :: rest)
  = foldr add (scan QuoteSeen rest) f.
Proof.
  induction f as [|c f IH]; [done|].
  cbn [flat_map foldr]. rewrite <- IH.
  destruct (N.eqb_spec c quotechar) as [->|Hne]; [done|].
  cbn [app scan]. apply N.eqb_neq in Hne. unfold quotechar in Hne.
  by rewrite Hne.
Qed.

Lemma foldr_add_cell (f : pystr) (row : list pystr) (rest : list (list pystr)) :
  foldr add (([] :: row) :: rest) f = (f :: row) :: rest.
Proof. induction f as [|c f IH]; [done|]. cbn [foldr]. by rewrite IH. Qed.

Lemma unquoted_ordinary (os : platform) (f : pystr) :
  existsb (special (linesep os)) f = false -> carriage_safe os f ->
  Forall (fun c => c <> 44 /\ c <> 34 /\ c <> 10 /\ c <> 13)%N f.
Proof.
  induction f as [|c f IH]; [constructor|].
  cbn [existsb]. intros [Hc Hf]%orb_false_iff Hsafe.
  assert (Hsafe' : (c =? 13)%N = false \/ os = Windows).
  { destruct os; [left|by right]. cbn [carriage_safe existsb] in Hsafe.
    apply orb_false_iff in Hsafe as [Hsafe _]. by rewrite N.eqb_sym. }
  constructor.
  - unfold special in Hc. apply orb_false_iff in Hc as [Hc Hlt].
    apply orb_false_iff in Hc as [Hc Hq].
    apply N.eqb_neq in Hc, Hq. unfold comma in Hc. unfold quotechar in Hq.
    repeat split; try done.
    + destruct os; cbn [linesep existsb] in Hlt;
        repeat (apply orb_false_iff in Hlt as [? Hlt]);
        by apply N.eqb_neq.
    + destruct Hsafe' as [Hs | ->]; [by apply N.eqb_neq|].
      cbn [linesep existsb] in Hlt. apply orb_false_iff in Hlt as [Hlt _].
      by apply N.eqb_neq.
  - apply IH; [done|]. destruct os; [|done].
    cbn [carriage_safe existsb] in *. by apply orb_false_iff in Hsafe as [_ ?].
Qed.

Lemma scan_field (os : platform) (m : mode) (f rest : pystr)
    (next : list (list pystr)) :
  m = RecordStart \/ m = FieldStart ->
  carriage_safe os f ->
  scan m rest = next -> scan Plain rest = next -> scan QuoteSeen rest = next ->
  scan m (csv_field (linesep os) f ++ rest) = foldr add next f.
Proof.
  intros Hm Hsafe Hstart Hplain Hseen. unfold csv_field.
  destruct (existsb (special (linesep os)) f) eqn:Hsp.
  - rewrite <- !app_assoc. cbn [app].
    rewrite <- Hseen, <- scan_quoted_field. by destruct Hm as [-> | ->].
  - destruct f as [|c f]; [done|].
    rewrite <- Hplain. apply scan_start_field; try done.
    by apply unquoted_ordinary with os.
Qed.

Lemma scan_data_row (os : platform) (a b c rest : pystr) :
  carriage_safe os a -> carriage_safe os b -> carriage_safe os c ->
  scan RecordStart (data_row os a b c ++ rest)
  = [a; b; c] :: scan RecordStart rest.
Proof.
  intros Ha Hb Hc. unfold data_row. rewrite <- !app_assoc. cbn [app].
  rewrite (scan_field os RecordStart a _
             (new_cell (scan FieldStart
                (csv_field (linesep os) b
                 ++ comma :: csv_field (linesep os) c ++ linesep os ++ rest))));
    try done; [|by left].
  rewrite (scan_field os FieldStart b _
             (new_cell (scan FieldStart
                (csv_field (linesep os) c ++ linesep os ++ rest))));
    try done; [|by right].
  rewrite (scan_field os FieldStart c _ ([[]] :: scan RecordStart rest));
    try done; try (by destruct os); [|by right].
  rewrite foldr_add_cell. cbn [new_cell]. rewrite foldr_add_cell.
  cbn [new_cell]. by rewrite foldr_add_cell.
Qed.

Lemma carriage_safe_nth (os : platform) (l : list pystr) (i : nat) :
  Forall (carriage_safe os) l -> carriage_safe os (nth i l []).
Proof.
  intros H. revert i. induction H; intros [|i]; simpl; try done; by destruct os.
Qed.

Lemma read_table (os : platform) (ws ms es : list pystr) :
  Forall (carriage_safe os) (ws ++ ms ++ es) ->
  read_csv (table_text os ws ms es)
  = [col_word; col_meaning; col_example]
    :: map (fun i => [nth i ws []; nth i ms []; nth i es []])
           (seq 0 (length ws)).
Proof.
  intros [Hw [Hm He]%Forall_app]%Forall_app.
  unfold read_csv, table_text.
  replace (header_row os) with (data_row os col_word col_meaning col_example)
    by (by destruct os).
  rewrite scan_data_row by (by destruct os). f_equal.
  induction (seq 0 (length ws)) as [|i l IH]; [done|].
  cbn [map concat]. rewrite scan_data_row by (by apply carriage_safe_nth).
  by rewrite IH.
Qed.

End Reading.

(** ** Decoding the download *)

Lemma N_of_byte_of_N (n : N) : (n < 256)%N -> N_of_byte (byte_of_N n) = n.
Proof.
  intros Hn. unfold N_of_byte, byte_of_N.
  rewrite ascii_of_byte_of_ascii. by apply N_ascii_embedding.
Qed.

Lemma scalar_bounds (c : N) :
  scalar c = true -> ((c < 55296)%N \/ (57343 < c)%N) /\ (c < 1114112)%N.
Proof.
  unfold scalar, surrogate. intros [Hs Hc]%andb_true_iff.
  apply N.ltb_lt in Hc. split; [|done].
  destruct (N.leb_spec 55296 c), (N.leb_spec c 57343); simpl in Hs;
    try done; lia.
Qed.

Ltac settle_tests :=
  repeat match goal with
         | |- context [(?a <? ?b)%N] => destruct (N.ltb_spec a b); try lia
         | |- context [(?a <=? ?b)%N] => destruct (N.leb_spec a b); try lia
         end.

Lemma decode_char (c : N) (bs : list Byte.byte) (rest : list N) :
  scalar c = true -> utf8_char c = inr bs ->
  Utf8.decode (map N_of_byte bs ++ rest) = cons c <$> Utf8.decode rest.
Proof.
  intros [Hsur Hmax]%scalar_bounds. unfold utf8_char.
  pose proof (N.div_mod' c 64) as Hc.
  pose proof (N.mod_upper_bound c 64 ltac:(lia)) as Hr1.
  pose proof (N.div_mod' (c / 64) 64) as Hq1.
  pose proof (N.mod_upper_bound (c / 64) 64 ltac:(lia)) as Hr2.
  pose proof (N.div_mod' (c / 64 / 64) 64) as Hq2.
  pose proof (N.mod_upper_bound (c / 64 / 64) 64 ltac:(lia)) as Hr3.
  change 4096%N with (64 * 64)%N. change 262144%N with (64 * 64 * 64)%N.
  rewrite <- !N.Div0.div_div.
  set (q1 := (c / 64)%N) in *. set (r1 := (c mod 64)%N) in *.
  set (q2 := (q1 / 64)%N) in *. set (r2 := (q1 mod 64)%N) in *.
  set (q3 := (q2 / 64)%N) in *. set (r3 := (q2 mod 64)%N) in *.
  clearbody q1 r1 q2 r2 q3 r3.
  destruct (N.ltb_spec c 128); [|destruct (N.ltb_spec c 2048);
    [|destruct (N.ltb_spec c 65536)]].
  - intros [= <-]. cbn [map app Utf8.decode].
    rewrite N_of_byte_of_N by lia. by settle_tests.
  - intros [= <-]. cbn [map app Utf8.decode].
    rewrite !N_of_byte_of_N by lia.
    unfold Utf8.continuation. settle_tests. cbn [andb].
    f_equal. f_equal. lia.
  - destruct (N.leb_spec 55296 c), (N.leb_spec c 57343); cbn [andb];
      try lia; intros [= <-]; cbn [map app Utf8.decode];
      rewrite !N_of_byte_of_N by lia;
      unfold Utf8.continuation, surrogate; settle_tests; cbn [andb negb];
      f_equal; f_equal; lia.
  - intros [= <-]. cbn [map app Utf8.decode].
    rewrite !N_of_byte_of_N by lia.
    unfold Utf8.continuation. settle_tests. cbn [andb].
    f_equal. f_equal. lia.
Qed.

Lemma decode_encode (s : pystr) :
  scalar_text s ->
  exists data, encode_utf8 s = inr data /\ decode_utf8 data = Some s.
Proof.
  unfold scalar_text, decode_utf8. induction s as [|c s IH]; [by exists []|].
  cbn [forallb]. intros [Hc Hs]%andb_true_iff.
  destruct (IH Hs) as (data & Henc & Hdec).
  destruct (utf8_char c) as [e|bs] eqn:Hbs.
  - exfalso. apply scalar_bounds in Hc as [Hc _]. unfold utf8_char in Hbs.
    destruct (c <? 128)%N; [done|]. destruct (c <? 2048)%N; [done|].
    destruct (c <? 65536)%N; [|done].
    destruct (N.leb_spec 55296 c), (N.leb_spec c 57343); try done; lia.
  - exists (bs ++ data). cbn [encode_utf8]. rewrite Hbs, Henc. split; [done|].
    rewrite map_app, (decode_char c bs _ Hc Hbs), Hdec. done.
Qed.

Lemma scalar_text_app (s t : pystr) :
  scalar_text s -> scalar_text t -> scalar_text (s ++ t).
Proof. unfold scalar_text. intros Hs Ht. by rewrite forallb_app, Hs, Ht. Qed.

Lemma scalar_text_csv_field (lt s : pystr) :
  scalar_text s -> scalar_text (csv_field lt s).
Proof.
  intros Hs. unfold csv_field. destruct (existsb _ s); [|done].
  apply scalar_text_app; [done|]. apply scalar_text_app; [|done].
  unfold scalar_text in *. induction s as [|c s IH]; [done|].
  cbn [forallb flat_map] in *. apply andb_true_iff in Hs as [Hc Hs].
  rewrite forallb_app, (IH Hs), andb_true_r.
  destruct (c =? quotechar)%N; cbn [forallb]; by rewrite Hc.
Qed.

Lemma scalar_text_nth (l : list pystr) (i : nat) :
  Forall scalar_text l -> scalar_text (nth i l []).
Proof. intros H. revert i. induction H; intros [|i]; simpl; done. Qed.

Lemma scalar_text_table (os : platform) (ws ms es : list pystr) :
  Forall scalar_text (ws ++ ms ++ es) -> scalar_text (table_text os ws ms es).
Proof.
  intros [Hw [Hm He]%Forall_app]%Forall_app.
  unfold table_text. apply scalar_text_app; [by destruct os|].
  induction (seq 0 (length ws)) as [|i l IH]; [done|].
  cbn [map concat]. apply scalar_text_app; [|done]. unfold data_row.
  repeat apply scalar_text_app;
    try (by apply scalar_text_csv_field, scalar_text_nth);
    try done; by destruct os.
Qed.

(** ** The vocabulary table *)

(** C8, counterexample. The statement fails in three cases.  With empty
    lists no table is rendered: the tab shows a warning and offers no
    download.  With a lone surrogate in a word the tab ends in an
    exception and offers no download.  With a carriage return in a word,
    where the line terminator is a line feed, the word is written without
    quotes: the table of one entry reads back as the header and two data
    rows, neither of them the entry. *)
Lemma vocabulary_table_fails :
  (length (@nil pystr) = length (@nil pystr)
   /\ vocabulary_tab Posix [] [] [] [] = ([st_warning NoWords], inr tt)
   /\ (forall data mime,
         st_download_button data mime ∉ fst (vocabulary_tab Posix [] [] [] [])))
  /\ (exists e,
        snd (vocabulary_tab Posix [lone_surrogate] [str "m1"] [str "e1"] [])
        = inl e
        /\ forall data mime,
             st_download_button data mime
             ∉ fst (vocabulary_tab Posix [lone_surrogate] [str "m1"]
                      [str "e1"] []))
  /\ (exists data text,
        vocabulary_tab Posix [broken_word] [str "m1"] [str "e1"] []
        = ([ st_dataframe [ (col_word, [broken_word]);
                            (col_meaning, [str "m1"]);
                            (col_example, [str "e1"]) ];
             st_download_button data "text/csv";
             st_success (WordsExtracted 1) ],
           inr tt)
        /\ decode_utf8 data = Some text
        /\ read_csv text
           = [ [ [45800; 50612]%N; [46907]%N; [50696; 47928]%N ];
               [ str "a" ];
               [ str "b"; str "m1"; str "e1" ] ]).
Proof.
  split; [|split].
  - split; [done|]. split; [done|].
    intros data mime H. simpl in H.
    apply list_elem_of_singleton in H. discriminate.
  - exists UnicodeEncodeError. split; [vm_compute; reflexivity|].
    intros data mime H. vm_compute in H.
    apply list_elem_of_singleton in H. discriminate.
  - eexists _, _. split; [vm_compute; reflexivity|].
    split; vm_compute; reflexivity.
Qed.

(** C8, amended. For three vocabulary lists of one length N, with N at
    least 1, whose strings hold no lone surrogate and, where the line
    terminator is a line feed, no carriage return: the download offered is
    UTF-8 encoded delimited text whose first row is the header 단어,뜻,예문
    (code points 45800 50612, 46907, 50696 47928) followed by exactly N
    data rows, where row [i] holds [words[i]], [word_meanings[i]] and
    [word_sentences[i]], in the original order, nothing lost. *)
Theorem vocabulary_table (os : platform)
    (words word_meanings word_sentences : list pystr) (log : list st_call) :
  length words = length word_meanings ->
  length words = length word_sentences ->
  0 < length words ->
  Forall scalar_text (words ++ word_meanings ++ word_sentences) ->
  Forall (carriage_safe os) (words ++ word_meanings ++ word_sentences) ->
  exists data text,
    vocabulary_tab os words word_meanings word_sentences log
    = (log ++ [ st_dataframe [ ([45800; 50612]%N, words);
                               ([46907]%N, word_meanings);
                               ([50696; 47928]%N, word_sentences) ];
                st_download_button data "text/csv";
                st_success (WordsExtracted (length words)) ],
       inr tt)
    /\ decode_utf8 data = Some text
    /\ read_csv text
       = [ [45800; 50612]%N; [46907]%N; [50696; 47928]%N ]
         :: map (fun i => [ nth i words []; nth i word_meanings [];
                            nth i word_sentences [] ])
                (seq 0 (length words)).
Proof.
  intros Hm Hs Hpos Hscalar Hsafe.
  destruct (decode_encode (table_text os words word_meanings word_sentences))
    as (data & Henc & Hdec); [by apply scalar_text_table|].
  exists data, (table_text os words word_meanings word_sentences).
  split; [|split; [done|by apply read_table]].
  unfold vocabulary_tab. rewrite <- Hm, <- Hs.
  destruct (Nat.eqb_spec (length words) 0); [lia|]. simpl andb. cbv iota.
  unfold make_frame. cbn [forallb snd andb].
  rewrite <- Hm, <- Hs, Nat.eqb_refl. cbn [andb].
  unfold mbind, ui_bind, lift, call.
  rewrite to_csv_table, Henc. cbn [negb andb]. by rewrite <- !app_assoc.
Qed.

Lemma vocabulary_table_witness :
  vocabulary_tab Posix two_words two_meanings two_examples []
  = ([ st_dataframe [ (col_word, two_words); (col_meaning, two_meanings);
                      (col_example, two_examples) ];
       st_download_button TableBytes.two_rows "text/csv";
       st_success (WordsExtracted 2) ],
     inr tt)
  /\ exists text,
       decode_utf8 TableBytes.two_rows = Some text
       /\ read_csv text
          = [ [ [45800; 50612]%N; [46907]%N; [50696; 47928]%N ];
              [ str "hello"; [50504; 45397]%N; str "hello world" ];
              [ str "say " ++ dquote ++ str "hi" ++ dquote; str "a, b";
                str "she said: say " ++ dquote ++ str "hi" ++ dquote ] ].
Proof.
  destruct (vocabulary_table Posix two_words two_meanings two_examples []
              eq_refl eq_refl (Nat.lt_0_succ 1))
    as (data & text & Htab & Hdec & Hread).
  - repeat constructor.
  - repeat constructor.
  - assert (Hdata : data = TableBytes.two_rows).
    { assert (Hrun : vocabulary_tab Posix two_words two_meanings two_examples []
                     = ([ st_dataframe [ (col_word, two_words);
                                         (col_meaning, two_meanings);
                                         (col_example, two_examples) ];
                          st_download_button TableBytes.two_rows "text/csv";
                          st_success (WordsExtracted 2) ],
                        inr tt)) by (vm_compute; reflexivity).
      rewrite Hrun in Htab. by injection Htab as ->. }
    subst data. split; [exact Htab|]. exists text. split; [exact Hdec|].
    exact Hread.
Defined.

(** ** The sentence document *)

(** *** Block numbers *)

Lemma decimal_value_app (s : pystr) (c : N) :
  decimal_value (s ++ [c]) = (10 * decimal_value s + (c - 48))%N.
Proof. unfold decimal_value. by rewrite fold_left_app. Qed.

Lemma digit_small (k : N) : (k < 10)%N -> digit (48 + k) = true.
Proof.
  intros Hk. unfold digit. apply andb_true_iff. split; apply N.leb_le; lia.
Qed.

Lemma digits_S (fuel : nat) (n : N) (acc : pystr) :
  digits (S fuel) n acc
  = if (n <? 10)%N then (48 + n mod 10)%N :: acc
    else digits fuel (n / 10)%N ((48 + n mod 10)%N :: acc).
Proof. reflexivity. Qed.

Lemma digits_numeral (fuel : nat) (n : N) (acc : pystr) :
  (n < 10 ^ N.of_nat (S fuel))%N ->
  exists ds,
    digits (S fuel) n acc = ds ++ acc /\ ds <> [] /\ forallb digit ds = true
    /\ decimal_value ds = n /\ (hd 48%N ds = 48%N -> ds = [48%N]).
Proof.
  revert n acc. induction fuel as [|fuel IH]; intros n acc Hn.
  - change (10 ^ N.of_nat 1)%N with 10%N in Hn.
    exists [(48 + n mod 10)%N]. rewrite digits_S.
    destruct (N.ltb_spec n 10); [|lia].
    rewrite N.mod_small by done. repeat split; try done.
    + cbn [forallb]. by rewrite digit_small.
    + unfold decimal_value. simpl. lia.
    + simpl. intros H0. assert (n = 0%N) as -> by lia. done.
  - rewrite digits_S. destruct (N.ltb_spec n 10) as [Hlt|Hge].
    + exists [(48 + n mod 10)%N].
      rewrite N.mod_small by done. repeat split; try done.
      * cbn [forallb]. by rewrite digit_small.
      * unfold decimal_value. simpl. lia.
      * simpl. intros H0. assert (n = 0%N) as -> by lia. done.
    + assert (Hdiv : (n / 10 < 10 ^ N.of_nat (S fuel))%N).
      { apply N.Div0.div_lt_upper_bound.
        rewrite <- N.pow_succ_r'. by rewrite <- Nat2N.inj_succ. }
      destruct (IH (n / 10)%N ((48 + n mod 10)%N :: acc) Hdiv)
        as (ds & Hds & Hne & Hdig & Hval & Hhd).
      exists (ds ++ [(48 + n mod 10)%N]). repeat split.
      * rewrite Hds. by rewrite <- app_assoc.
      * intros Happ. by apply app_eq_nil in Happ as [_ Happ].
      * rewrite forallb_app, Hdig. cbn [forallb andb].
        rewrite digit_small; [done|]. apply N.mod_upper_bound. lia.
      * rewrite decimal_value_app, Hval.
        pose proof (N.div_mod' n 10) as Hdm.
        clear -Hdm. set (q := (n / 10)%N) in *. set (r := (n mod 10)%N) in *.
        clearbody q r. lia.
      * destruct ds as [|d ds]; [done|]. simpl. intros Hd.
        specialize (Hhd Hd). injection Hhd as -> ->.
        unfold decimal_value in Hval. simpl in Hval.
        assert (Hq : (1 <= n / 10)%N) by (apply N.div_le_lower_bound; lia).
        rewrite <- Hval in Hq. clear -Hq. lia.
Qed.

Lemma str_of_nat_numeral (n : nat) : numeral n (str_of_nat n).
Proof.
  unfold str_of_nat.
  assert (Hn : (N.of_nat n < 10 ^ N.of_nat (S n))%N).
  { apply N.lt_le_trans with (10 ^ N.of_nat n)%N.
    - apply N.pow_gt_lin_r. lia.
    - apply N.pow_le_mono_r; lia. }
  destruct (digits_numeral n (N.of_nat n) [] Hn)
    as (ds & Hds & Hne & Hdig & Hval & Hhd).
  rewrite Hds, app_nil_r. by repeat split.
Qed.

(** *** The story *)

Lemma zip_take_min {A B} (l : list A) (k : list B) :
  zip (take (Nat.min (length l) (length k)) l)
      (take (Nat.min (length l) (length k)) k)
  = zip l k.
Proof.
  revert k. induction l as [|a l IH]; intros [|b k]; try done.
  cbn [length Nat.min take zip zip_with]. f_equal. apply IH.
Qed.

Section Story.

Variable font_usable : string -> bool.
Variable parses : pystr -> bool.

Lemma story_loop_built (heading normal : style) (ss ts : list pystr)
    (i : nat) (story : list flowable) :
  (forall k, k < Nat.min (length ss) (length ts) ->
     parses (b_open ++ sentence_label ++ str_of_nat (i + k) ++ str ":" ++ b_close)
     = true
     /\ parses (b_open ++ source_label ++ b_close ++ str " " ++ nth k ss []) = true
     /\ parses (b_open ++ translation_label ++ b_close ++ str " " ++ nth k ts [])
        = true) ->
  story_loop parses heading normal (zip ss ts) i story
  = inr (story
         ++ concat (map (fun k =>
              [ Paragraph (b_open ++ sentence_label ++ str_of_nat (i + k)
                           ++ str ":" ++ b_close) heading;
                Paragraph (b_open ++ source_label ++ b_close ++ str " "
                           ++ nth k ss []) normal;
                Paragraph (b_open ++ translation_label ++ b_close ++ str " "
                           ++ nth k ts []) normal;
                Spacer 1 15 ])
              (seq 0 (Nat.min (length ss) (length ts))))).
Proof.
  revert ts i story. induction ss as [|s ss IH]; intros [|t ts] i story Hp;
    cbn [zip zip_with story_loop length Nat.min seq map concat];
    try by rewrite app_nil_r.
  destruct (Hp 0) as (Hh & Hs & Ht); [simpl; lia|].
  rewrite Nat.add_0_r in Hh. cbn [nth] in Hs, Ht.
  unfold paragraph, mbind, res_bind. rewrite Hh, Hs, Ht.
  rewrite IH.
  - rewrite <- app_assoc, <- seq_shift, map_map, Nat.add_0_r.
    apply f_equal, f_equal. cbn [nth app]. do 4 apply f_equal.
    apply f_equal, map_ext. intros k. cbn [nth]. by rewrite Nat.add_succ_r.
  - intros k Hk. specialize (Hp (S k)). cbn [nth length Nat.min] in Hp.
    rewrite Nat.add_succ_r in Hp. apply Hp. simpl. lia.
Qed.

Lemma create_story_take (sentences translations : list pystr) (topic : pystr) :
  create_story font_usable parses sentences translations topic
  = create_story font_usable parses
      (take (Nat.min (length sentences) (length translations)) sentences)
      (take (Nat.min (length sentences) (length translations)) translations)
      topic.
Proof. unfold create_story. by rewrite zip_take_min. Qed.

Lemma create_story_built (sentences translations : list pystr) (topic : pystr) :
  parses (b_open ++ topic_label ++ topic ++ b_close) = true ->
  (forall k, k < Nat.min (length sentences) (length translations) ->
     parses (b_open ++ sentence_label ++ str_of_nat (S k) ++ str ":" ++ b_close)
     = true
     /\ parses (b_open ++ source_label ++ b_close ++ str " "
                ++ nth k sentences []) = true
     /\ parses (b_open ++ translation_label ++ b_close ++ str " "
                ++ nth k translations []) = true) ->
  exists title heading normal,
    create_story font_usable parses sentences translations topic
    = inr ([ Paragraph (b_open ++ topic_label ++ topic ++ b_close) title;
             Spacer 1 20 ]
           ++ concat (map (fun k =>
                [ Paragraph (b_open ++ sentence_label ++ str_of_nat (S k)
                             ++ str ":" ++ b_close) heading;
                  Paragraph (b_open ++ source_label ++ b_close ++ str " "
                             ++ nth k sentences []) normal;
                  Paragraph (b_open ++ translation_label ++ b_close ++ str " "
                             ++ nth k translations []) normal;
                  Spacer 1 15 ])
                (seq 0 (Nat.min (length sentences) (length translations))))).
Proof.
  intros Htitle Hp. unfold create_story.
  destruct (existsb font_usable font_paths); do 3 eexists;
    unfold paragraph at 1; rewrite Htitle; unfold mbind, res_bind;
    rewrite (story_loop_built _ _ _ _ 1) by exact Hp; reflexivity.
Qed.

Variable build : list flowable -> res (list Byte.byte).

(** C10, amended. The sentence document never fails because the two
    lists differ in length: the unpaired tail of the longer list has no
    effect on the outcome.  When the parser accepts the title and the
    paragraphs of the paired sentences and translations, the story handed
    to the builder is the title block followed by exactly [min] blocks,
    where [min] is the lesser length: block [k + 1] is headed by the
    decimal numeral of [k + 1] and holds the sentence and the translation
    at position [k]. *)
Theorem create_pdf_pairs (sentences translations : list pystr) (topic : pystr) :
  create_pdf font_usable parses build sentences translations topic
  = create_pdf font_usable parses build
      (take (Nat.min (length sentences) (length translations)) sentences)
      (take (Nat.min (length sentences) (length translations)) translations)
      topic
  /\ (parses (b_open ++ topic_label ++ topic ++ b_close) = true ->
      (forall k num,
         k < Nat.min (length sentences) (length translations) ->
         numeral (S k) num ->
         parses (b_open ++ sentence_label ++ num ++ str ":" ++ b_close) = true) ->
      (forall k,
         k < Nat.min (length sentences) (length translations) ->
         parses (b_open ++ source_label ++ b_close ++ str " "
                 ++ nth k sentences []) = true
         /\ parses (b_open ++ translation_label ++ b_close ++ str " "
                    ++ nth k translations []) = true) ->
      exists title heading normal number story,
        (forall k, numeral (S k) (number k))
        /\ story
           = [ Paragraph (b_open ++ topic_label ++ topic ++ b_close) title;
               Spacer 1 20 ]
             ++ concat (map (fun k =>
                  [ Paragraph (b_open ++ sentence_label ++ number k ++ str ":"
                               ++ b_close) heading;
                    Paragraph (b_open ++ source_label ++ b_close ++ str " "
                               ++ nth k sentences []) normal;
                    Paragraph (b_open ++ translation_label ++ b_close
                               ++ str " " ++ nth k translations []) normal;
                    Spacer 1 15 ])
                  (seq 0 (Nat.min (length sentences) (length translations))))
        /\ create_story font_usable parses sentences translations topic
           = inr story
        /\ create_pdf font_usable parses build sentences translations topic
           = build story).
Proof.
  split.
  - unfold create_pdf. by rewrite <- create_story_take.
  - intros Htitle Hnum Htext.
    destruct (create_story_built sentences translations topic Htitle)
      as (title & heading & normal & Hstory).
    { intros k Hk. split; [|by apply Htext].
      apply (Hnum k); [done|]. apply str_of_nat_numeral. }
    exists title, heading, normal, (fun k => str_of_nat (S k)).
    eexists. split; [intros k; apply str_of_nat_numeral|].
    split; [reflexivity|]. split; [exact Hstory|].
    unfold create_pdf. by rewrite Hstory.
Qed.

(** X12. The font only changes the styles of the sentence document, never
    whether it can be made nor what it shows: with any font files the
    story is made exactly when it is made with none, with the same texts
    and spacers.  Every paragraph is set in the registered font "Korean"
    when one of the five font files can be used, and in the font of the
    sample style sheet when none can. *)
Theorem create_pdf_fonts (sentences translations : list pystr) (topic : pystr) :
  sum_map id (fmap content)
    (create_story font_usable parses sentences translations topic)
  = sum_map id (fmap content)
      (create_story (fun _ => false) parses sentences translations topic)
  /\ (forall story,
        create_story font_usable parses sentences translations topic
        = inr story ->
        Forall (set_in (if existsb font_usable font_paths
                        then Some "Korean"%string else None)) story).
Proof.
  assert (Hloop : forall h n h' n' pairs i story story',
            content <$> story = content <$> story' ->
            sum_map id (fmap content) (story_loop parses h n pairs i story)
            = sum_map id (fmap content) (story_loop parses h' n' pairs i story')).
  { intros h n h' n' pairs. induction pairs as [|[s t] pairs IH];
      intros i story story' Hst; cbn [story_loop].
    - simpl. by rewrite Hst.
    - unfold paragraph, mbind, res_bind.
      repeat match goal with
             | |- context [parses ?x] => destruct (parses x); [|done]
             end.
      apply IH. rewrite !fmap_app. by rewrite Hst. }
  assert (Hset : forall font h n pairs i story story',
            style_font h = font -> style_font n = font ->
            Forall (set_in font) story ->
            story_loop parses h n pairs i story = inr story' ->
            Forall (set_in font) story').
  { intros font h n pairs Hh Hn. revert Hh Hn.
    induction pairs as [|[s t] pairs IH]; intros i story story' Hh Hn Hst;
      cbn [story_loop].
    - by intros [= <-].
    - unfold paragraph, mbind, res_bind.
      repeat match goal with
             | |- context [parses ?x] => destruct (parses x); [|done]
             end.
      apply IH; try done. apply Forall_app. split; [done|].
      repeat (apply Forall_cons_2; [done|]). apply Forall_nil_2. }
  unfold create_story. change (existsb (fun _ => false) font_paths) with false.
  split.
  - destruct (existsb font_usable font_paths); cbv iota beta;
      unfold paragraph, mbind, res_bind;
      (destruct (parses (b_open ++ topic_label ++ topic ++ b_close)); [|done]);
      by apply Hloop.
  - intros story.
    destruct (existsb font_usable font_paths); cbv iota beta;
      unfold paragraph at 1, mbind, res_bind;
      (destruct (parses (b_open ++ topic_label ++ topic ++ b_close)); [|done]);
      apply Hset; try reflexivity;
      repeat (apply Forall_cons_2; [done|]); apply Forall_nil_2.
Qed.

End Story.

(** *** Numerals are unique *)

Lemma decimal_value_positive (s : pystr) :
  s <> [] -> forallb digit s = true -> hd 48%N s <> 48%N ->
  (0 < decimal_value s)%N.
Proof.
  destruct s as [|a s]; [done|]. intros _ Hdig Hhd. cbn [hd] in Hhd.
  cbn [forallb] in Hdig. apply andb_true_iff in Hdig as [Ha _].
  unfold digit in Ha. apply andb_true_iff in Ha as [Ha _].
  apply N.leb_le in Ha. unfold decimal_value. cbn [fold_left].
  assert (Hacc : (0 < 10 * 0 + (a - 48))%N) by lia.
  revert Hacc. generalize (10 * 0 + (a - 48))%N. clear.
  induction s as [|c s IH]; intros acc Hacc; cbn [fold_left]; [done|].
  apply IH. lia.
Qed.

Lemma numeral_unique (n : nat) (s s' : pystr) :
  numeral n s -> numeral n s' -> s = s'.
Proof.
  intros (Hne & Hdig & Hhd & Hval) (Hne' & Hdig' & Hhd' & Hval').
  rewrite <- Hval' in Hval. clear n Hval'.
  revert s' Hne Hdig Hhd Hne' Hdig' Hhd' Hval.
  induction s as [|c s IH] using rev_ind; [done|].
  intros s' _ Hdig Hhd Hne' Hdig' Hhd' Hval.
  destruct s' as [|c' s' _] using rev_ind; [done|]. clear Hne'.
  rewrite !decimal_value_app in Hval.
  rewrite forallb_app in Hdig, Hdig'. cbn [forallb] in Hdig, Hdig'.
  apply andb_true_iff in Hdig as [Hdig Hc], Hdig' as [Hdig' Hc'].
  rewrite andb_true_r in Hc, Hc'. unfold digit in Hc, Hc'.
  apply andb_true_iff in Hc as [Hc1 Hc2], Hc' as [Hc1' Hc2'].
  apply N.leb_le in Hc1, Hc2, Hc1', Hc2'.
  assert (c = c' /\ decimal_value s = decimal_value s') as [-> Hv] by lia.
  f_equal. clear Hval Hc1 Hc2 Hc1' Hc2'.
  assert (Hlead : forall t : pystr, t <> [] ->
            (hd 48%N (t ++ [c']) = 48%N -> t ++ [c'] = [48%N]) ->
            hd 48%N t <> 48%N).
  { intros [|a t] Ht Hl; [done|]. cbn [hd app] in *. intros Ha.
    specialize (Hl Ha). injection Hl as _ Hl. by destruct t. }
  destruct s as [|a s]; [|destruct s' as [|a' s']].
  - destruct s' as [|a' s']; [done|].
    pose proof (decimal_value_positive (a' :: s')) as Hpos.
    rewrite <- Hv in Hpos. unfold decimal_value at 1 in Hpos.
    cbn [fold_left] in Hpos.
    exfalso. eapply N.lt_irrefl, Hpos; [done|done|]. by apply Hlead.
  - pose proof (decimal_value_positive (a :: s)) as Hpos.
    rewrite Hv in Hpos. unfold decimal_value at 1 in Hpos.
    cbn [fold_left] in Hpos.
    exfalso. eapply N.lt_irrefl, Hpos; [done|done|]. by apply Hlead.
  - apply IH; try done.
    + intros Ha. exfalso. by apply (Hlead (a :: s)).
    + intros Ha. exfalso. by apply (Hlead (a' :: s')).
Qed.

Lemma numeral_str_of_nat (n : nat) (s : pystr) :
  numeral n s -> s = str_of_nat n.
Proof. intros Hs. apply (numeral_unique n); [done|apply str_of_nat_numeral]. Qed.

Lemma create_pdf_pairs_witness :
  create_pdf (fun _ => false) balanced_bold sample_build
    (twelve_sentences ++ [str "s13"]) twelve_translations (str "Food")
  = create_pdf (fun _ => false) balanced_bold sample_build
      twelve_sentences twelve_translations (str "Food")
  /\ (exists title heading normal,
        create_story (fun _ => false) balanced_bold
          (twelve_sentences ++ [str "s13"]) twelve_translations (str "Food")
        = inr (sample_title title
               ++ sample_block heading normal "1" "s1" "t1"
               ++ sample_block heading normal "2" "s2" "t2"
               ++ sample_block heading normal "3" "s3" "t3"
               ++ sample_block heading normal "4" "s4" "t4"
               ++ sample_block heading normal "5" "s5" "t5"
               ++ sample_block heading normal "6" "s6" "t6"
               ++ sample_block heading normal "7" "s7" "t7"
               ++ sample_block heading normal "8" "s8" "t8"
               ++ sample_block heading normal "9" "s9" "t9"
               ++ sample_block heading normal "10" "s10" "t10"
               ++ sample_block heading normal "11" "s11" "t11"
               ++ sample_block heading normal "12" "s12" "t12"))
  /\ create_pdf (fun _ => false) balanced_bold sample_build
       (twelve_sentences ++ [str "s13"]) twelve_translations (str "Food")
     = inr ([Byte.x50; Byte.x53]
            ++ concat (replicate 12 [Byte.x50; Byte.x50; Byte.x50; Byte.x53])).
Proof.
  destruct (create_pdf_pairs (fun _ => false) balanced_bold sample_build
              (twelve_sentences ++ [str "s13"]) twelve_translations
              (str "Food")) as [Htail Hstory].
  split; [exact Htail|].
  destruct Hstory as (title & heading & normal & number & story & Hnum
                      & Hstory & Hmade & Hbuilt).
  - vm_compute. reflexivity.
  - intros k num Hk Hn. apply numeral_str_of_nat in Hn. subst num.
    change (k < 12) in Hk.
    do 12 (destruct k as [|k]; [vm_compute; reflexivity|]). lia.
  - intros k Hk. change (k < 12) in Hk.
    do 12 (destruct k as [|k]; [vm_compute; split; reflexivity|]). lia.
  - assert (Hnumber : forall k, number k = str_of_nat (S k))
      by (intros k; apply numeral_str_of_nat, Hnum).
    change (Nat.min (length (twelve_sentences ++ [str "s13"]))
                    (length twelve_translations)) with 12 in Hstory.
    cbn [seq map concat app] in Hstory. rewrite !Hnumber in Hstory.
    split.
    + exists title, heading, normal. rewrite Hmade, Hstory.
      vm_compute. reflexivity.
    + rewrite Hbuilt, Hstory. vm_compute. reflexivity.
Defined.

(** C10, counterexample. A sentence whose bold tag is never closed is
    markup the paragraph parser rejects.  With such a sentence among the
    pairs the renderer raises, whatever the fonts and the builder, and
    emits no block at all, although the lesser length is 1. *)
Lemma unparsable_sentence_no_document :
  Nat.min (length [lone_tag; str "s2"]) (length [str "t1"]) = 1
  /\ (forall font_usable parses build,
        parses (str "<b>" ++ [50896; 47928; 58]%N ++ str "</b> a <b> c")
        = false ->
        create_pdf font_usable parses build [lone_tag; str "s2"] [str "t1"]
          (str "Food")
        = inl ValueError)
  /\ create_pdf (fun _ => false) balanced_bold sample_build
       [lone_tag; str "s2"] [str "t1"] (str "Food")
     = inl ValueError
  /\ ~ (exists story,
          create_story (fun _ => false) balanced_bold
            [lone_tag; str "s2"] [str "t1"] (str "Food")
          = inr story).
Proof.
  split; [reflexivity|]. split; [|split; [vm_compute; reflexivity|]].
  - intros font_usable parses build Hrej.
    unfold create_pdf, create_story.
    destruct (existsb font_usable font_paths); cbv iota beta;
      cbn [zip zip_with story_loop]; unfold paragraph, mbind, res_bind;
      repeat match goal with
             | |- context [parses ?x] => destruct (parses x) eqn:?
             end;
      try reflexivity; exfalso; vm_compute in *; congruence.
  - intros [story Hstory]. vm_compute in Hstory. discriminate Hstory.
Qed.

Lemma create_pdf_fonts_witness :
  sum_map id (fmap content)
    (create_story nanum_only balanced_bold [str "s1"] [str "t1"] (str "Food"))
  = sum_map id (fmap content)
      (create_story (fun _ => false) balanced_bold [str "s1"] [str "t1"]
         (str "Food"))
  /\ Forall (set_in (Some "Korean"%string))
       (sample_title (ParagraphStyle "KoreanTitle" (SampleStyle "Title")
                        "Korean" 16 20)
        ++ sample_block
             (ParagraphStyle "KoreanHeading" (SampleStyle "Heading2")
                "Korean" 12 10)
             (ParagraphStyle "KoreanNormal" (SampleStyle "Normal")
                "Korean" 10 8)
             "1" "s1" "t1").
Proof.
  destruct (create_pdf_fonts nanum_only balanced_bold [str "s1"] [str "t1"]
              (str "Food")) as [Hcontent Hfont].
  split; [exact Hcontent|].
  apply (Hfont _). vm_compute. reflexivity.
Defined.

(** *** Records stored by the handler *)

Section StoredDocument.

Variable json_loads : pystr -> res json.
Variable font_usable : string -> bool.
Variable parses : pystr -> bool.

(** X13. Nothing of a stored record is left out of the sentence document:
    when the record the handler returns has lists of strings as sentences
    and translations, the two lists have one length, and, when the parser
    accepts the paragraphs, the story has one numbered block for each
    stored sentence, block [k + 1] holding sentence [k] and translation
    [k]. *)
Theorem stored_record_document (result : pystr) (log : list st_call)
    (record : analysis) (ss ts : list pystr) (topic : pystr) :
  analyse_response json_loads result [] = (log, inr record) ->
  sentences record = JArr (JStr <$> ss) ->
  translations record = JArr (JStr <$> ts) ->
  parses (b_open ++ topic_label ++ topic ++ b_close) = true ->
  (forall k num,
     k < length ss -> numeral (S k) num ->
     parses (b_open ++ sentence_label ++ num ++ str ":" ++ b_close) = true) ->
  (forall k,
     k < length ss ->
     parses (b_open ++ source_label ++ b_close ++ str " " ++ nth k ss [])
     = true
     /\ parses (b_open ++ translation_label ++ b_close ++ str " "
                ++ nth k ts []) = true) ->
  length ss = length ts
  /\ exists title heading normal number,
       (forall k, numeral (S k) (number k))
       /\ create_story font_usable parses ss ts topic
          = inr ([ Paragraph (b_open ++ topic_label ++ topic ++ b_close) title;
                   Spacer 1 20 ]
                 ++ concat (map (fun k =>
                      [ Paragraph (b_open ++ sentence_label ++ number k
                                   ++ str ":" ++ b_close) heading;
                        Paragraph (b_open ++ source_label ++ b_close
                                   ++ str " " ++ nth k ss []) normal;
                        Paragraph (b_open ++ translation_label ++ b_close
                                   ++ str " " ++ nth k ts []) normal;
                        Spacer 1 15 ])
                      (seq 0 (length ss)))).
Proof.
  intros Hrun Hss Hts Htitle Hnum Htext.
  assert (Hlen : length ss = length ts).
  { destruct (returned_record_aligned json_loads result log record Hrun)
      as [(n & Hs & Ht) _].
    rewrite Hss in Hs. rewrite Hts in Ht. simpl in Hs, Ht.
    rewrite length_fmap in Hs, Ht. congruence. }
  split; [done|].
  destruct (create_story_built font_usable parses ss ts topic Htitle)
    as (title & heading & normal & Hstory).
  { rewrite <- Hlen, Nat.min_id. intros k Hk. split; [|by apply Htext].
    apply (Hnum k); [done|]. apply str_of_nat_numeral. }
  rewrite <- Hlen, Nat.min_id in Hstory.
  exists title, heading, normal, (fun k => str_of_nat (S k)).
  split; [intros k; apply str_of_nat_numeral|exact Hstory].
Qed.

End StoredDocument.

Lemma stored_record_document_witness :
  length [str "Hello world"] = length [str "Hallo Welt"]
  /\ exists title heading normal,
       create_story nanum_only balanced_bold [str "Hello world"]
         [str "Hallo Welt"] (str "Food")
       = inr (sample_title title
              ++ sample_block heading normal "1" "Hello world" "Hallo Welt").
Proof.
  destruct (stored_record_document sample_loads nanum_only balanced_bold
              good_text [] good_record [str "Hello world"] [str "Hallo Welt"]
              (str "Food"))
    as (Hlen & title & heading & normal & number & Hnum & Hstory);
    try (vm_compute; reflexivity).
  - intros k num Hk Hn. apply numeral_str_of_nat in Hn. subst num.
    change (k < 1) in Hk. destruct k as [|k]; [vm_compute; reflexivity|lia].
  - intros k Hk. change (k < 1) in Hk.
    destruct k as [|k]; [vm_compute; split; reflexivity|lia].
  - split; [exact Hlen|]. exists title, heading, normal.
    assert (Hnumber : number 0 = str_of_nat 1)
      by apply numeral_str_of_nat, Hnum.
    rewrite Hstory. cbn [length seq map concat app]. rewrite Hnumber.
    vm_compute. reflexivity.
Defined.

(** * Further properties *)

(** ** The extracted text is a piece of the response *)

Lemma substring_refl (s : pystr) : substring s s.
Proof. exists [], []. by rewrite app_nil_r. Qed.

Lemma substring_trans (a b c : pystr) :
  substring a b -> substring b c -> substring a c.
Proof.
  intros (p1 & q1 & ->) (p2 & q2 & ->).
  exists (p2 ++ p1), (q1 ++ q2). by rewrite <- !app_assoc.
Qed.

Lemma substring_slice (s : pystr) (a b : Z) : substring (slice s a b) s.
Proof.
  unfold slice. set (i := clip (length s) a). set (n := clip (length s) b - i).
  exists (take i s), (drop n (drop i s)).
  by rewrite take_drop, take_drop.
Qed.

Lemma lstrip_suffix (s : pystr) : exists pre, s = pre ++ lstrip s.
Proof.
  induction s as [|c s [pre IH]]; simpl.
  - by exists [].
  - destruct (isspace c).
    + exists (c :: pre). simpl. by rewrite <- IH.
    + by exists [].
Qed.

Lemma substring_strip (s : pystr) : substring (strip s) s.
Proof.
  unfold strip, rstrip.
  destruct (lstrip_suffix s) as [pre Hpre].
  destruct (lstrip_suffix (rev (lstrip s))) as [post Hpost].
  exists pre, (rev post).
  rewrite <- rev_app_distr, <- Hpost, rev_involutive. exact Hpre.
Qed.

(** X5. Whatever the response, the text handed to the JSON decoder is a
    contiguous piece of it: the extraction only cuts, it never adds or
    reorders characters. *)
Theorem extract_json_substring (result : pystr) :
  substring (extract_json result) result.
Proof.
  unfold extract_json.
  destruct (contains fence_json result).
  - eapply substring_trans; [apply substring_strip | apply substring_slice].
  - destruct (contains lbrace result && contains rbrace result).
    + apply substring_slice.
    + apply substring_refl.
Qed.

(** ** Responses that decode to something unexpected *)

Section UnexpectedData.

Variable json_loads : pystr -> res json.

(** X6. When the response decodes to a value that is not an object (a
    list, a string, a number, ...), nothing is stored: the handler reports
    the attribute error with the raw response and returns the session
    state it was given. *)
Theorem not_an_object (state : session_state) (url_input result : pystr)
    (v : json) :
  json_loads (extract_json result) = inr v ->
  (forall d, v <> JObj d) ->
  process_response json_loads state url_input result
  = ([st_error (ProcessingFailed AttributeError); st_write RawResultLabel;
      st_code result], state).
Proof.
  intros Hloads Hobj. unfold process_response, analyse_response.
  unfold mbind at 1. unfold ui_bind, lift at 1. rewrite Hloads.
  destruct v; try reflexivity. by destruct (Hobj d).
Qed.

Lemma validate_vocabulary_no_len (w m e : json) (log : list st_call) :
  py_len w = inl TypeError \/ py_len m = inl TypeError
  \/ py_len e = inl TypeError ->
  validate_vocabulary w m e log = (log, inl TypeError).
Proof.
  intros H. unfold validate_vocabulary, mbind, ui_bind, lift, mret, ui_ret.
  destruct (py_len w) as [ew|nw] eqn:Hw.
  { destruct w; simpl in Hw; congruence. }
  destruct (py_len m) as [em|nm] eqn:Hm.
  { destruct m; simpl in Hm; congruence. }
  destruct H as [H|[H|H]]; try discriminate.
  rewrite H. by destruct (negb (nw =? nm)).
Qed.

(** X7. A vocabulary key that is present with a value that has no length
    (null, a number, a boolean) is not replaced by the empty list: the
    handler reports the type error with the raw response, shows no length
    warning, and returns the session state it was given. *)
Theorem field_without_length (state : session_state)
    (url_input result : pystr) (d : gmap pystr json) :
  json_loads (extract_json result) = inr (JObj d) ->
  py_len (field d "words") = inl TypeError
  \/ py_len (field d "word_meanings") = inl TypeError
  \/ py_len (field d "word_sentences") = inl TypeError ->
  process_response json_loads state url_input result
  = ([st_error (ProcessingFailed TypeError); st_write RawResultLabel;
      st_code result], state).
Proof.
  intros Hloads Hlen. unfold process_response, analyse_response.
  unfold mbind at 1. unfold ui_bind, lift at 1. rewrite Hloads.
  cbn [py_get]. unfold mbind, ui_bind, lift.
  fold (field d "words"). fold (field d "word_meanings").
  fold (field d "word_sentences").
  by rewrite (validate_vocabulary_no_len _ _ _ [] Hlen).
Qed.

End UnexpectedData.

Lemma not_an_object_witness :
  process_response sample_loads old_state url_b array_text
  = ([st_error (ProcessingFailed AttributeError); st_write RawResultLabel;
      st_code array_text], old_state).
Proof.
  apply (not_an_object sample_loads old_state url_b array_text array_data).
  - reflexivity.
  - intros d. discriminate.
Defined.

Lemma field_without_length_witness :
  process_response more_loads old_state url_b null_words_text
  = ([st_error (ProcessingFailed TypeError); st_write RawResultLabel;
      st_code null_words_text], old_state).
Proof.
  apply (field_without_length more_loads old_state url_b null_words_text
           null_words_data).
  - reflexivity.
  - left. vm_compute. reflexivity.
Defined.

(** ** Responses that need no extraction *)

Lemma contains_single (c : N) (s : pystr) : c ∉ s -> contains [c] s = false.
Proof.
  intros Hc. apply contains_absent. intros j [t Ht].
  apply Hc. apply list_elem_of_lookup. exists j.
  by rewrite <- (Nat.add_0_r j), <- lookup_drop, Ht.
Qed.

(** X18. A response that needs no extraction reaches the decoder as it is:
    without a json-tagged fence marker, a text that starts with an opening
    brace and ends with a closing brace is returned unchanged, and so
    is a text that lacks one of the two braces. *)
Theorem clean_response_unchanged (raw : pystr) :
  contains fence_json raw = false ->
  (forall mid, raw = lbrace ++ mid ++ rbrace -> extract_json raw = raw)
  /\ (123%N ∉ raw \/ 125%N ∉ raw -> extract_json raw = raw).
Proof.
  intros Hfence. unfold extract_json. rewrite Hfence.
  change lbrace with [123%N]. change rbrace with [125%N]. split.
  - intros mid Hraw.
    assert (Hl : raw = [] ++ 123%N :: (mid ++ [125%N])) by done.
    assert (Hr : raw = ([123%N] ++ mid) ++ 125%N :: []).
    { rewrite Hraw. by rewrite <- app_assoc. }
    assert (Hc1 : contains [123%N] raw = true) by (rewrite Hl; apply contains_char).
    assert (Hc2 : contains [125%N] raw = true) by (rewrite Hr; apply contains_char).
    assert (Hf : find [123%N] raw 0 = Z.of_nat (length (@nil N))).
    { rewrite Hl. apply find_char. apply not_elem_of_nil. }
    assert (Hrf : rfind [125%N] raw = Z.of_nat (length ([123%N] ++ mid))).
    { rewrite Hr. apply rfind_char. apply not_elem_of_nil. }
    rewrite Hc1, Hc2, Hf, Hrf. simpl andb. cbv iota.
    replace (Z.of_nat (length ([123%N] ++ mid)) + 1)%Z
      with (Z.of_nat (length (@nil N) + length raw)).
    + rewrite <- (app_nil_r raw) at 1.
      rewrite <- (app_nil_l (raw ++ [])) at 1.
      by rewrite slice_middle.
    + rewrite Hraw, !length_app. simpl. lia.
  - intros [H|H].
    + by rewrite (contains_single _ _ H).
    + rewrite (contains_single _ _ H). by rewrite andb_false_r.
Qed.

Lemma clean_response_unchanged_witness :
  extract_json object_a = object_a.
Proof.
  apply (proj1 (clean_response_unchanged object_a eq_refl)
           (dquote ++ str "a" ++ dquote ++ str ":1")).
  reflexivity.
Defined.

(** ** Well-formed responses, end to end *)

Lemma validate_vocabulary_lists (ws ms es : list json) (log : list st_call) :
  validate_vocabulary (JArr ws) (JArr ms) (JArr es) log
  = (log ++ vocabulary_messages ws ms es,
     inr (JArr (take (Nat.min (length ws) (Nat.min (length ms) (length es))) ws),
          JArr (take (Nat.min (length ws) (Nat.min (length ms) (length es))) ms),
          JArr (take (Nat.min (length ws) (Nat.min (length ms) (length es))) es))).
Proof.
  unfold vocabulary_messages.
  destruct (Nat.eqb_spec (length ws) (length ms)) as [Hm|Hm];
    [destruct (Nat.eqb_spec (length ws) (length es)) as [Hs|Hs]|]; cbn [andb].
  - rewrite validation_unchanged, app_nil_r, !take_ge by lia. done.
  - unfold validate_vocabulary, mbind, ui_bind, lift, call, mret, ui_ret.
    simpl py_len. cbv iota beta. rewrite <- Hm, Nat.eqb_refl. simpl.
    destruct (Nat.eqb_spec (length ws) (length es)); [done|]. simpl.
    by rewrite !slice_take, <- app_assoc.
  - unfold validate_vocabulary, mbind, ui_bind, lift, call, mret, ui_ret.
    simpl py_len. cbv iota beta.
    destruct (Nat.eqb_spec (length ws) (length ms)); [done|]. simpl.
    by rewrite !slice_take, <- app_assoc.
Qed.

Lemma validate_sentences_lists (ss ts : list json) (log : list st_call) :
  validate_sentences (JArr ss) (JArr ts) log
  = (log ++ sentence_messages ss ts,
     inr (JArr (take (Nat.min (length ss) (length ts)) ss),
          JArr (take (Nat.min (length ss) (length ts)) ts))).
Proof.
  unfold sentence_messages, validate_sentences, mbind, ui_bind, lift, call,
    mret, ui_ret.
  simpl py_len. cbv iota beta.
  destruct (Nat.eqb_spec (length ss) (length ts)) as [Hl|Hl]; simpl.
  - rewrite app_nil_r, !take_ge by lia. done.
  - by rewrite !slice_take, <- app_assoc.
Qed.

Lemma calculate_difficulty_level_of (ss : list pystr) :
  calculate_difficulty (JArr (JStr <$> ss)) = inr (level_of ss).
Proof. apply calculate_difficulty_strings. Qed.

Section WellFormed.

Variable json_loads : pystr -> res json.

(** X8. A response that decodes to an object whose five array keys are
    missing or hold lists, the sentences being strings, is always stored:
    the record holds the topic (or the default topic), the first [k]
    sentences and translations and the first [n] words, meanings and
    examples, where [k] and [n] are the least lengths, with the level of
    the kept sentences; the vocabulary messages come before the sentence
    messages, and the URL becomes the submitted one. *)
Theorem well_formed_response (state : session_state)
    (url_input result : pystr) (d : gmap pystr json)
    (ss : list pystr) (ts ws ms es : list json) :
  json_loads (extract_json result) = inr (JObj d) ->
  field d "sentences" = JArr (JStr <$> ss) ->
  field d "translations" = JArr ts ->
  field d "words" = JArr ws ->
  field d "word_meanings" = JArr ms ->
  field d "word_sentences" = JArr es ->
  process_response json_loads state url_input result
  = (vocabulary_messages ws ms es ++ sentence_messages (JStr <$> ss) ts,
     SessionState
       (Some (Analysis
                (default (JStr default_topic) (d !! str "topic"))
                (JArr (JStr <$> take (Nat.min (length ss) (length ts)) ss))
                (JArr (take (Nat.min (length ss) (length ts)) ts))
                (JArr (take (Nat.min (length ws) (Nat.min (length ms) (length es))) ws))
                (JArr (take (Nat.min (length ws) (Nat.min (length ms) (length es))) ms))
                (JArr (take (Nat.min (length ws) (Nat.min (length ms) (length es))) es))
                (level_of (take (Nat.min (length ss) (length ts)) ss))))
       url_input).
Proof.
  intros Hloads Hss Hts Hws Hms Hes.
  unfold process_response, analyse_response.
  unfold mbind at 1. unfold ui_bind, lift at 1. rewrite Hloads.
  cbn [py_get]. unfold mbind, ui_bind, lift.
  fold (field d "sentences"). fold (field d "translations").
  fold (field d "words"). fold (field d "word_meanings").
  fold (field d "word_sentences").
  rewrite Hss, Hts, Hws, Hms, Hes.
  rewrite validate_vocabulary_lists, validate_sentences_lists.
  rewrite length_fmap, <- fmap_take, calculate_difficulty_level_of.
  reflexivity.
Qed.

End WellFormed.

Lemma well_formed_response_witness :
  process_response more_loads old_state url_b uneven_text
  = ([ st_warning (VocabularyMismatch 1 2 0); st_info (LengthAligned 0);
       st_warning (SentenceMismatch 2 1); st_info (LengthAligned 1) ],
     SessionState
       (Some (Analysis (JStr default_topic)
                (JArr [JStr (str "One two.")]) (JArr [JStr (str "Eins zwei.")])
                (JArr []) (JArr []) (JArr []) A1))
       url_b).
Proof.
  apply (well_formed_response more_loads old_state url_b uneven_text
           uneven_data [str "One two."; str "Three."]
           [JStr (str "Eins zwei.")] [JStr (str "One")]
           [JStr (str "Eins"); JStr (str "Zwei")] []);
    vm_compute; reflexivity.
Defined.

(** ** Difficulty scoring: elements that are not strings, order *)

Lemma all_strings (l : list json) :
  forallb is_str l = true -> exists ss, l = JStr <$> ss.
Proof.
  induction l as [|v l IH]; simpl.
  - by exists [].
  - intros [Hv Hl]%andb_true_iff. destruct (IH Hl) as [ss ->].
    destruct v; try discriminate. by exists (s :: ss).
Qed.

Lemma count_loop_not_string (l : list json) (t c : nat) :
  forallb is_str l = false -> count_loop l t c = inl AttributeError.
Proof.
  revert t c. induction l as [|v l IH]; intros t c; simpl; [done|].
  destruct v; simpl; try done.
  intros H. by apply IH.
Qed.

Lemma calculate_difficulty_not_strings (l : list json) :
  forallb is_str l = false -> calculate_difficulty (JArr l) = inl AttributeError.
Proof.
  intros H. unfold calculate_difficulty.
  destruct l as [|v l]; [done|].
  cbn [truthy length Nat.eqb negb py_iter]. unfold mbind, res_bind.
  by rewrite count_loop_not_string.
Qed.

(** X9. On a list, the scorer returns a level when every element is a
    string, and raises the attribute error of the missing [split] method
    as soon as one element is not (a number, null, a list, ...); it never
    fails in another way. *)
Theorem difficulty_of_list (l : list json) :
  (forallb is_str l = true -> exists lvl, calculate_difficulty (JArr l) = inr lvl)
  /\ (forallb is_str l = false -> calculate_difficulty (JArr l) = inl AttributeError).
Proof.
  split.
  - intros [ss ->]%all_strings. rewrite calculate_difficulty_strings. eauto.
  - apply calculate_difficulty_not_strings.
Qed.

Lemma difficulty_of_list_witness :
  (exists lvl, calculate_difficulty
                 (JArr [JStr (str "One two."); JStr (str "Three.")]) = inr lvl)
  /\ calculate_difficulty (JArr [JStr (str "One two."); JNull])
     = inl AttributeError.
Proof.
  split.
  - apply (proj1 (difficulty_of_list [JStr (str "One two."); JStr (str "Three.")])).
    reflexivity.
  - apply (proj2 (difficulty_of_list [JStr (str "One two."); JNull])).
    reflexivity.
Defined.

(** X10. The level does not depend on the order of the sentences. *)
Theorem difficulty_of_permutation (ss ss' : list pystr) :
  ss ≡ₚ ss' ->
  calculate_difficulty (JArr (JStr <$> ss))
  = calculate_difficulty (JArr (JStr <$> ss')).
Proof.
  intros Hp. rewrite !calculate_difficulty_strings.
  assert (Hl : length ss = length ss') by (by rewrite Hp).
  assert (Ht : total_words ss = total_words ss').
  { unfold total_words. by rewrite Hp. }
  assert (Hc : complex_words ss = complex_words ss').
  { unfold complex_words. by rewrite Hp. }
  by rewrite Hl, Ht, Hc.
Qed.

Lemma difficulty_of_permutation_witness :
  calculate_difficulty (JArr (JStr <$> [str "One two."; str "Three."]))
  = calculate_difficulty (JArr (JStr <$> [str "Three."; str "One two."])).
Proof.
  apply (difficulty_of_permutation [str "One two."; str "Three."]
           [str "Three."; str "One two."]).
  apply perm_swap.
Defined.

(** ** Validation is idempotent *)

Lemma validate_vocabulary_equal (w m e : json) (n : nat) (log : list st_call) :
  py_len w = inr n -> py_len m = inr n -> py_len e = inr n ->
  validate_vocabulary w m e log = (log, inr (w, m, e)).
Proof.
  intros Hw Hm He.
  unfold validate_vocabulary, mbind, ui_bind, lift, mret, ui_ret.
  rewrite Hw, Hm, Nat.eqb_refl. simpl. by rewrite He, Nat.eqb_refl.
Qed.

Lemma validate_sentences_equal (s t : json) (n : nat) (log : list st_call) :
  py_len s = inr n -> py_len t = inr n ->
  validate_sentences s t log = (log, inr (s, t)).
Proof.
  intros Hs Ht.
  unfold validate_sentences, mbind, ui_bind, lift, mret, ui_ret.
  by rewrite Hs, Ht, Nat.eqb_refl.
Qed.

(** X11. Validation is idempotent: what it returns, for decoded values of
    any kind, passes validation again unchanged and without any
    message. *)
Theorem validation_idempotent (w m e s t w' m' e' s' t' : json)
    (log1 log1' log2 log2' : list st_call) :
  validate_vocabulary w m e log1 = (log1', inr (w', m', e')) ->
  validate_sentences s t log2 = (log2', inr (s', t')) ->
  (forall log, validate_vocabulary w' m' e' log = (log, inr (w', m', e')))
  /\ (forall log, validate_sentences s' t' log = (log, inr (s', t'))).
Proof.
  intros (n & Hw & Hm & He)%validate_vocabulary_aligned
         (k & Hs & Ht)%validate_sentences_aligned.
  split; intros log.
  - by eapply validate_vocabulary_equal.
  - by eapply validate_sentences_equal.
Qed.

Lemma validation_idempotent_witness :
  validate_vocabulary (JArr (take 3 five_words)) (JArr (take 3 three_meanings))
                      (JArr (take 3 five_sentences)) []
  = ([], inr (JArr (take 3 five_words), JArr (take 3 three_meanings),
              JArr (take 3 five_sentences)))
  /\ validate_sentences (JArr (take 3 four_sentences)) (JArr three_translations) []
     = ([], inr (JArr (take 3 four_sentences), JArr three_translations)).
Proof.
  destruct (validation_idempotent
              (JArr five_words) (JArr three_meanings) (JArr five_sentences)
              (JArr four_sentences) (JArr three_translations)
              (JArr (take 3 five_words)) (JArr (take 3 three_meanings))
              (JArr (take 3 five_sentences))
              (JArr (take 3 four_sentences)) (JArr three_translations)
              [] [ st_warning (VocabularyMismatch 5 3 5); st_info (LengthAligned 3) ]
              [] [ st_warning (SentenceMismatch 4 3); st_info (LengthAligned 3) ]
              eq_refl eq_refl) as [Hv Hs].
  split; [apply Hv | apply Hs].
Defined.

(** ** The vocabulary table: when it cannot be built *)

(** X14. The table depends on validation: for three non-empty vocabulary
    lists whose lengths are not all equal, building the data frame raises
    the value error before anything is shown, and no download is
    offered. *)
Theorem table_needs_equal_lengths (os : platform)
    (words word_meanings word_sentences : list pystr) (log : list st_call) :
  words <> [] -> word_meanings <> [] -> word_sentences <> [] ->
  ~ (length words = length word_meanings
     /\ length words = length word_sentences) ->
  vocabulary_tab os words word_meanings word_sentences log
  = (log, inl ValueError).
Proof.
  intros Hw Hm He Hne. unfold vocabulary_tab.
  destruct words as [|w ws]; [done|].
  destruct word_meanings as [|m ms]; [done|].
  destruct word_sentences as [|e es]; [done|].
  cbn [length Nat.eqb negb andb]. unfold make_frame. cbn [forallb snd].
  destruct (Nat.eqb_spec (length (m :: ms)) (length (w :: ws))) as [E1|E1];
    [destruct (Nat.eqb_spec (length (e :: es)) (length (w :: ws))) as [E2|E2]|];
    cbn [andb]; try reflexivity.
  destruct Hne. by split.
Qed.

Lemma table_needs_equal_lengths_witness :
  vocabulary_tab Posix two_words two_meanings [str "hello world"] []
  = ([], inl ValueError).
Proof.
  apply (table_needs_equal_lengths Posix two_words two_meanings
           [str "hello world"] []); try discriminate.
  intros [_ H]. discriminate.
Defined.

Lemma utf8_char_error (c : N) (e : exn) :
  utf8_char c = inl e -> e = UnicodeEncodeError.
Proof.
  unfold utf8_char.
  repeat match goal with
         | |- context [if ?b then _ else _] => destruct b
         end; congruence.
Qed.

Lemma encode_utf8_surrogate (s : pystr) :
  Exists (fun c => surrogate c = true) s ->
  encode_utf8 s = inl UnicodeEncodeError.
Proof.
  induction 1 as [c s Hc|c s _ IH]; simpl.
  - unfold utf8_char. unfold surrogate in Hc.
    apply andb_true_iff in Hc as [H1 H2]. rewrite H1, H2.
    apply N.leb_le in H1, H2.
    destruct (N.ltb_spec c 128); [lia|].
    destruct (N.ltb_spec c 2048); [lia|].
    destruct (N.ltb_spec c 65536); [done|lia].
  - rewrite IH. destruct (utf8_char c) as [e|b] eqn:Hc; simpl; [|done].
    by rewrite (utf8_char_error c e Hc).
Qed.

Lemma elem_of_concat_intro {A} (x : A) (l : list A) (ls : list (list A)) :
  x ∈ l -> l ∈ ls -> x ∈ concat ls.
Proof.
  intros Hx Hl. induction Hl as [l ls|l l' ls _ IH]; simpl;
    apply elem_of_app; auto.
Qed.

Lemma elem_of_csv_field (lt field : pystr) (c : N) :
  c ∈ field -> c ∈ csv_field lt field.
Proof.
  intros Hc. unfold csv_field. destruct (existsb _ field); [|done].
  apply elem_of_app. right. apply elem_of_app. left.
  induction Hc as [c s|c a s _ IH]; simpl.
  - apply elem_of_app. left. destruct (c =? quotechar)%N; by left.
  - apply elem_of_app. by right.
Qed.

Lemma elem_of_table_text (os : platform) (ws ms es : list pystr) (c : N) :
  length ws = length ms -> length ws = length es ->
  (exists f, f ∈ ws ++ ms ++ es /\ c ∈ f) ->
  c ∈ table_text os ws ms es.
Proof.
  intros Hm He (f & Hf & Hc). unfold table_text.
  apply elem_of_app. right.
  assert (Hi : exists i, i < length ws
                 /\ (nth i ws [] = f \/ nth i ms [] = f \/ nth i es [] = f)).
  { rewrite !elem_of_app in Hf.
    destruct Hf as [Hf|[Hf|Hf]];
      apply list_elem_of_lookup in Hf as [i Hi]; exists i;
      pose proof (lookup_lt_Some _ _ _ Hi);
      (split; [lia|]); rewrite (nth_lookup_Some _ _ _ _ Hi); auto. }
  destruct Hi as (i & Hlt & Hrow).
  apply (elem_of_concat_intro c
           (data_row os (nth i ws []) (nth i ms []) (nth i es []))).
  - unfold data_row. rewrite !elem_of_app.
    destruct Hrow as [<-|[<-|<-]];
      [left | right; right; left | right; right; right; right; left];
      by apply elem_of_csv_field.
  - apply list_elem_of_fmap. exists i. split; [done|].
    apply elem_of_seq. lia.
Qed.

Lemma surrogate_stops_table (os : platform)
    (words word_meanings word_sentences : list pystr) (log : list st_call) :
  length words = length word_meanings ->
  length words = length word_sentences ->
  0 < length words ->
  Exists (Exists (fun c => surrogate c = true))
         (words ++ word_meanings ++ word_sentences) ->
  vocabulary_tab os words word_meanings word_sentences log
  = (log ++ [ st_dataframe [ (col_word, words); (col_meaning, word_meanings);
                             (col_example, word_sentences) ] ],
     inl UnicodeEncodeError).
Proof.
  intros Hm He Hpos Hsur.
  assert (Henc : encode_utf8 (table_text os words word_meanings word_sentences)
                 = inl UnicodeEncodeError).
  { apply encode_utf8_surrogate.
    apply Exists_exists in Hsur as (f & Hf & Hc).
    apply Exists_exists in Hc as (c & Hc & Hs).
    apply Exists_exists. exists c. split; [|done].
    apply elem_of_table_text; eauto. }
  unfold vocabulary_tab. rewrite <- Hm, <- He.
  destruct (Nat.eqb_spec (length words) 0); [lia|]. simpl andb. cbv iota.
  unfold make_frame. cbn [forallb snd andb].
  rewrite <- Hm, <- He, Nat.eqb_refl. cbn [andb].
  unfold mbind, ui_bind, lift, call.
  rewrite to_csv_table, Henc. reflexivity.
Qed.

(** X15. A lone surrogate in any word, meaning or example makes the
    download impossible: for three lists of one length N, with N at least
    1, the text of the table has no UTF-8 encoding, the tab ends in an
    exception, and it offers no download. *)
Theorem table_with_surrogate (os : platform)
    (words word_meanings word_sentences : list pystr) :
  length words = length word_meanings ->
  length words = length word_sentences ->
  0 < length words ->
  Exists (Exists (fun c => surrogate c = true))
         (words ++ word_meanings ++ word_sentences) ->
  exists calls e,
    vocabulary_tab os words word_meanings word_sentences [] = (calls, inl e)
    /\ forall data mime, st_download_button data mime ∉ calls.
Proof.
  intros Hm He Hpos Hsur.
  rewrite (surrogate_stops_table os _ _ _ [] Hm He Hpos Hsur).
  do 2 eexists. split; [reflexivity|].
  intros data mime H. apply list_elem_of_singleton in H. discriminate.
Qed.

Lemma table_with_surrogate_witness :
  exists calls e,
    vocabulary_tab Posix [str "hello"] [[55357%N]] [str "hello world"] []
    = (calls, inl e)
    /\ forall data mime, st_download_button data mime ∉ calls.
Proof.
  apply (table_with_surrogate Posix [str "hello"] [[55357%N]]
           [str "hello world"] eq_refl eq_refl (Nat.lt_0_succ 0)).
  apply Exists_cons_tl, Exists_cons_hd, Exists_cons_hd. reflexivity.
Defined.

(** ** The handler and the session state *)

Section Session.

Variable load_page : pystr -> res pystr.
Variable chain_run : pystr -> res pystr.
Variable json_loads : pystr -> res json.

Lemma process_response_cases (state : session_state)
    (url_input result : pystr) :
  snd (process_response json_loads state url_input result) = state
  \/ exists record,
       aligned record
       /\ snd (process_response json_loads state url_input result)
          = SessionState (Some record) url_input.
Proof.
  destruct (analyse_response json_loads result []) as [log [e|record]] eqn:Hrun.
  - left. destruct (process_failure json_loads state url_input result log e Hrun)
      as [m ->]. done.
  - right. exists record. split.
    + by eapply returned_record_aligned.
    + by rewrite (process_success json_loads state url_input result log record).
Qed.

(** X16. The button changes the session only by storing a complete result:
    whenever the handler returns, either the session state is the one it
    was given, or it holds an aligned record together with the submitted
    URL, which is then not empty.  With an empty URL the state is the one
    given. *)
Theorem button_stores_or_keeps (state state' : session_state)
    (url_input : pystr) (calls : list st_call) :
  analysis_button load_page chain_run json_loads state url_input
  = inr (calls, state') ->
  state' = state
  \/ (url_input <> []
      /\ exists record,
           aligned record /\ state' = SessionState (Some record) url_input).
Proof.
  unfold analysis_button.
  destruct url_input as [|c url]; cbn [length Nat.eqb].
  - intros [= _ <-]. by left.
  - unfold mbind, res_bind.
    destruct (load_page (c :: url)) as [e|text]; [done|].
    destruct (chain_run text) as [e|result]; [done|].
    intros [= Hrun].
    destruct (process_response_cases state (c :: url) result)
      as [Hsame|(record & Hal & Hnew)].
    + left. by rewrite <- Hsame, Hrun.
    + right. split; [done|]. exists record. split; [done|].
      by rewrite <- Hnew, Hrun.
Qed.

(** X17. The URL kept in the session is empty exactly when no record is
    kept: this holds in a new session, and the button and the reset keep
    it, so the URL field is prefilled exactly when results are shown. *)
Theorem session_linked :
  linked (session_init None)
  /\ (forall state, linked (reset_button state))
  /\ (forall state state' url_input calls,
        linked state ->
        analysis_button load_page chain_run json_loads state url_input
        = inr (calls, state') ->
        linked state').
Proof.
  split; [done|]. split; [done|].
  intros state state' url_input calls Hinv Hrun.
  unfold analysis_button in Hrun.
  destruct url_input as [|c url]; cbn [length Nat.eqb] in Hrun.
  - injection Hrun as _ <-. exact Hinv.
  - unfold mbind, res_bind in Hrun.
    destruct (load_page (c :: url)) as [e|text]; [done|].
    destruct (chain_run text) as [e|result]; [done|].
    injection Hrun as Hrun.
    destruct (process_response_cases state (c :: url) result)
      as [Hsame|(record & Hal & Hnew)].
    + rewrite Hrun in Hsame. simpl in Hsame. by subst.
    + rewrite Hrun in Hnew. simpl in Hnew. subst. by split.
Qed.

End Session.

Lemma button_stores_or_keeps_witness :
  SessionState (Some good_record) url_b = old_state
  \/ (url_b <> []
      /\ exists record,
           aligned record
           /\ SessionState (Some good_record) url_b
              = SessionState (Some record) url_b).
Proof.
  apply (button_stores_or_keeps sample_page sample_chain sample_loads
           old_state (SessionState (Some good_record) url_b) url_b []).
  vm_compute. reflexivity.
Defined.

Lemma session_linked_witness : linked (SessionState (Some good_record) url_b).
Proof.
  apply (proj2 (proj2 (session_linked sample_page sample_chain sample_loads))
           (session_init None) (SessionState (Some good_record) url_b) url_b []).
  - apply (proj1 (session_linked sample_page sample_chain sample_loads)).
  - vm_compute. reflexivity.
Defined.

(** ** Failures after the first messages *)

Lemma validate_sentences_no_len (s t : json) (log : list st_call) :
  py_len s = inl TypeError \/ py_len t = inl TypeError ->
  validate_sentences s t log = (log, inl TypeError).
Proof.
  intros H. unfold validate_sentences, mbind, ui_bind, lift.
  destruct (py_len s) as [es|ns] eqn:Hs.
  { destruct s; simpl in Hs; congruence. }
  destruct H as [H|H]; [discriminate|]. by rewrite H.
Qed.

Section LateFailure.

Variable json_loads : pystr -> res json.

(** X19. Validation runs in order and a later failure does not take back
    what was shown: when the three vocabulary fields are lists but the
    sentences or the translations have no length (null, a number), the
    vocabulary messages are shown, then the type error with the raw
    response, and the session state is the one given. *)
Theorem sentences_without_length (state : session_state)
    (url_input result : pystr) (d : gmap pystr json) (ws ms es : list json) :
  json_loads (extract_json result) = inr (JObj d) ->
  field d "words" = JArr ws ->
  field d "word_meanings" = JArr ms ->
  field d "word_sentences" = JArr es ->
  py_len (field d "sentences") = inl TypeError
  \/ py_len (field d "translations") = inl TypeError ->
  process_response json_loads state url_input result
  = (vocabulary_messages ws ms es
     ++ [st_error (ProcessingFailed TypeError); st_write RawResultLabel;
         st_code result], state).
Proof.
  intros Hloads Hws Hms Hes Hlen.
  unfold process_response, analyse_response.
  unfold mbind at 1. unfold ui_bind, lift at 1. rewrite Hloads.
  cbn [py_get]. unfold mbind, ui_bind, lift.
  fold (field d "sentences"). fold (field d "translations").
  fold (field d "words"). fold (field d "word_meanings").
  fold (field d "word_sentences").
  rewrite Hws, Hms, Hes, validate_vocabulary_lists.
  by rewrite (validate_sentences_no_len _ _ _ Hlen).
Qed.

Lemma analyse_lists (result : pystr) (d : gmap pystr json)
    (ss ts ws ms es : list json) :
  json_loads (extract_json result) = inr (JObj d) ->
  field d "sentences" = JArr ss ->
  field d "translations" = JArr ts ->
  field d "words" = JArr ws ->
  field d "word_meanings" = JArr ms ->
  field d "word_sentences" = JArr es ->
  analyse_response json_loads result []
  = (vocabulary_messages ws ms es ++ sentence_messages ss ts,
     match calculate_difficulty (JArr (take (Nat.min (length ss) (length ts)) ss))
     with
     | inl e => inl e
     | inr lvl =>
         inr (Analysis
                (default (JStr default_topic) (d !! str "topic"))
                (JArr (take (Nat.min (length ss) (length ts)) ss))
                (JArr (take (Nat.min (length ss) (length ts)) ts))
                (JArr (take (Nat.min (length ws) (Nat.min (length ms) (length es))) ws))
                (JArr (take (Nat.min (length ws) (Nat.min (length ms) (length es))) ms))
                (JArr (take (Nat.min (length ws) (Nat.min (length ms) (length es))) es))
                lvl)
     end).
Proof.
  intros Hloads Hss Hts Hws Hms Hes.
  unfold analyse_response.
  unfold mbind at 1. unfold ui_bind, lift at 1. rewrite Hloads.
  cbn [py_get]. unfold mbind, ui_bind, lift.
  fold (field d "sentences"). fold (field d "translations").
  fold (field d "words"). fold (field d "word_meanings").
  fold (field d "word_sentences").
  rewrite Hss, Hts, Hws, Hms, Hes.
  rewrite validate_vocabulary_lists, validate_sentences_lists.
  by destruct (calculate_difficulty _).
Qed.

(** X20. Only the kept sentences are scored: when all five fields are
    lists and, among the sentences kept by validation, one is not a
    string, the validation messages are shown, then the attribute error
    with the raw response, and the session state is the one given.  A
    sentence that is not a string but is cut off by validation does no
    harm. *)
Theorem kept_sentence_not_string (state : session_state)
    (url_input result : pystr) (d : gmap pystr json)
    (ss ts ws ms es : list json) :
  json_loads (extract_json result) = inr (JObj d) ->
  field d "sentences" = JArr ss ->
  field d "translations" = JArr ts ->
  field d "words" = JArr ws ->
  field d "word_meanings" = JArr ms ->
  field d "word_sentences" = JArr es ->
  (forallb is_str (take (Nat.min (length ss) (length ts)) ss) = false ->
   process_response json_loads state url_input result
   = (vocabulary_messages ws ms es ++ sentence_messages ss ts
      ++ [st_error (ProcessingFailed AttributeError); st_write RawResultLabel;
          st_code result], state))
  /\ (forallb is_str (take (Nat.min (length ss) (length ts)) ss) = true ->
      exists record,
        snd (process_response json_loads state url_input result)
        = SessionState (Some record) url_input
        /\ sentences record = JArr (take (Nat.min (length ss) (length ts)) ss)).
Proof.
  intros Hloads Hss Hts Hws Hms Hes.
  unfold process_response.
  rewrite (analyse_lists result d ss ts ws ms es Hloads Hss Hts Hws Hms Hes).
  split; intros Hstr.
  - rewrite (calculate_difficulty_not_strings _ Hstr).
    by rewrite <- app_assoc.
  - destruct (all_strings _ Hstr) as [strs Hstrs]. rewrite Hstrs.
    rewrite calculate_difficulty_strings. eexists. split; reflexivity.
Qed.

End LateFailure.

Lemma sentences_without_length_witness :
  process_response odd_loads old_state url_b null_sentences_text
  = ([ st_warning (VocabularyMismatch 1 0 0); st_info (LengthAligned 0);
       st_error (ProcessingFailed TypeError); st_write RawResultLabel;
       st_code null_sentences_text ], old_state).
Proof.
  apply (sentences_without_length odd_loads old_state url_b
           null_sentences_text null_sentences_data [JStr (str "One")] [] []);
    try (vm_compute; reflexivity).
  left. vm_compute. reflexivity.
Defined.

Lemma kept_sentence_not_string_witness :
  process_response odd_loads old_state url_b number_sentence_text
  = ([ st_warning (SentenceMismatch 2 1); st_info (LengthAligned 1);
       st_error (ProcessingFailed AttributeError); st_write RawResultLabel;
       st_code number_sentence_text ], old_state).
Proof.
  apply (proj1 (kept_sentence_not_string odd_loads old_state url_b
                  number_sentence_text number_sentence_data
                  [JInt 7; JStr (str "Two.")] [JStr (str "Sieben")] [] [] []
                  eq_refl eq_refl eq_refl eq_refl eq_refl eq_refl)).
  reflexivity.
Defined.

(** ** What a stored record and its messages always satisfy *)

Lemma validate_vocabulary_log (w m e : json) (log log' : list st_call)
    (r : json * json * json) :
  validate_vocabulary w m e log = (log', inr r) ->
  exists extra, log' = log ++ extra /\ Forall informs extra /\ length extra <= 2.
Proof.
  unfold validate_vocabulary. intros H.
  apply ui_bind_inr in H as (log1 & nw & [Hw ->]%lift_inr & H).
  apply ui_bind_inr in H as (log2 & nm & [Hm ->]%lift_inr & H).
  apply ui_bind_inr in H as (log3 & mismatch & Hmis & H).
  assert (Hlog3 : log3 = log).
  { destruct (negb (nw =? nm)).
    - by apply mret_inr in Hmis as [_ ->].
    - apply ui_bind_inr in Hmis as (log4 & ns & [_ ->]%lift_inr & Hmis).
      by apply mret_inr in Hmis as [_ ->]. }
  subst log3. destruct mismatch.
  - apply ui_bind_inr in H as (log4 & ns & [Hs ->]%lift_inr & H).
    apply ui_bind_inr in H as (log5 & [] & ->%call_inr & H).
    apply ui_bind_inr in H as (log6 & w1 & [_ ->]%lift_inr & H).
    apply ui_bind_inr in H as (log7 & m1 & [_ ->]%lift_inr & H).
    apply ui_bind_inr in H as (log8 & s1 & [_ ->]%lift_inr & H).
    apply ui_bind_inr in H as (log9 & [] & ->%call_inr & H).
    apply mret_inr in H as [_ ->].
    eexists. rewrite <- app_assoc. split; [reflexivity|].
    split; [by repeat constructor | simpl; lia].
  - apply mret_inr in H as [_ ->]. exists []. rewrite app_nil_r.
    split; [done|]. split; [constructor | simpl; lia].
Qed.

Lemma validate_sentences_log (s t : json) (log log' : list st_call)
    (r : json * json) :
  validate_sentences s t log = (log', inr r) ->
  exists extra, log' = log ++ extra /\ Forall informs extra /\ length extra <= 2.
Proof.
  unfold validate_sentences. intros H.
  apply ui_bind_inr in H as (log1 & ns & [Hs ->]%lift_inr & H).
  apply ui_bind_inr in H as (log2 & nt & [Ht ->]%lift_inr & H).
  destruct (negb (ns =? nt)).
  - apply ui_bind_inr in H as (log3 & [] & ->%call_inr & H).
    apply ui_bind_inr in H as (log4 & s1 & [_ ->]%lift_inr & H).
    apply ui_bind_inr in H as (log5 & t1 & [_ ->]%lift_inr & H).
    apply ui_bind_inr in H as (log6 & [] & ->%call_inr & H).
    apply mret_inr in H as [_ ->].
    eexists. rewrite <- app_assoc. split; [reflexivity|].
    split; [by repeat constructor | simpl; lia].
  - apply mret_inr in H as [_ ->]. exists []. rewrite app_nil_r.
    split; [done|]. split; [constructor | simpl; lia].
Qed.

Section StoredRecord.

Variable json_loads : pystr -> res json.

(** X21. The stored level is the level of the stored sentences: for every
    response and every decoded value, a record the handler stores carries
    the difficulty that [calculate_difficulty] gives on the sentences of
    that same record, that is, on the sentences kept by validation. *)
Theorem stored_level_consistent (result : pystr) (log : list st_call)
    (record : analysis) :
  analyse_response json_loads result [] = (log, inr record) ->
  calculate_difficulty (sentences record) = inr (difficulty_level record).
Proof.
  unfold analyse_response. intros Hrun.
  apply ui_bind_inr in Hrun as (l1 & data & _ & H).
  apply ui_bind_inr in H as (l2 & topic & _ & H).
  apply ui_bind_inr in H as (l3 & sentences & _ & H).
  apply ui_bind_inr in H as (l4 & translations & _ & H).
  apply ui_bind_inr in H as (l5 & words & _ & H).
  apply ui_bind_inr in H as (l6 & word_meanings & _ & H).
  apply ui_bind_inr in H as (l7 & word_sentences & _ & H).
  apply ui_bind_inr in H as (l8 & [[w m] s] & _ & H).
  apply ui_bind_inr in H as (l9 & [s' t'] & _ & H).
  apply ui_bind_inr in H as (l10 & lvl & [Hlvl _]%lift_inr & H).
  by apply mret_inr in H as [<- _].
Qed.

(** X22. A result is never stored together with an error: when the handler
    stores a record, everything it shows is a warning or a notice, and it
    shows at most four of them. *)
Theorem stored_without_error (result : pystr) (log : list st_call)
    (record : analysis) :
  analyse_response json_loads result [] = (log, inr record) ->
  Forall informs log /\ length log <= 4.
Proof.
  unfold analyse_response. intros Hrun.
  apply ui_bind_inr in Hrun as (l1 & data & [_ ->]%lift_inr & H).
  apply ui_bind_inr in H as (l2 & topic & [_ ->]%lift_inr & H).
  apply ui_bind_inr in H as (l3 & sentences & [_ ->]%lift_inr & H).
  apply ui_bind_inr in H as (l4 & translations & [_ ->]%lift_inr & H).
  apply ui_bind_inr in H as (l5 & words & [_ ->]%lift_inr & H).
  apply ui_bind_inr in H as (l6 & word_meanings & [_ ->]%lift_inr & H).
  apply ui_bind_inr in H as (l7 & word_sentences & [_ ->]%lift_inr & H).
  apply ui_bind_inr in H as (l8 & [[w m] s] & Hvocab & H).
  apply ui_bind_inr in H as (l9 & [s' t'] & Hpairs & H).
  apply ui_bind_inr in H as (l10 & lvl & [_ ->]%lift_inr & H).
  apply mret_inr in H as [_ ->].
  apply validate_vocabulary_log in Hvocab as (x1 & -> & Hx1 & Hn1).
  apply validate_sentences_log in Hpairs as (x2 & -> & Hx2 & Hn2).
  split.
  - simpl. by apply Forall_app.
  - simpl. rewrite length_app. lia.
Qed.

End StoredRecord.

Lemma stored_level_consistent_witness :
  calculate_difficulty (sentences good_record)
  = inr (difficulty_level good_record).
Proof.
  apply (stored_level_consistent sample_loads good_text [] good_record).
  vm_compute. reflexivity.
Defined.

Lemma stored_without_error_witness :
  Forall informs [ st_warning (VocabularyMismatch 1 2 0); st_info (LengthAligned 0);
                   st_warning (SentenceMismatch 2 1); st_info (LengthAligned 1) ]
  /\ length [ st_warning (VocabularyMismatch 1 2 0); st_info (LengthAligned 0);
              st_warning (SentenceMismatch 2 1); st_info (LengthAligned 1) ] <= 4.
Proof.
  apply (stored_without_error more_loads uneven_text _
           (Analysis (JStr default_topic)
              (JArr [JStr (str "One two.")]) (JArr [JStr (str "Eins zwei.")])
              (JArr []) (JArr []) (JArr []) A1)).
  vm_compute. reflexivity.
Defined.

